(** * terraform-provider-emaildns: DKIM record parsing and SPF classification

    A shallow embedding of [internal/provider/dkim_parser.go] (the tag-value
    lexer [parseDKIMParams], [parseTagList] and the key validator
    [ParseDKIM]) and of the SPF data source ([parseMechanism] and the
    counting loop of [Read]), with the properties the specification states
    about them.

    Go strings are byte strings: they are modelled by [string] (a list of
    8-bit [ascii]); decoded key material is a [list byte]; the tag map
    [map[string]string] is a [gmap string string]. *)

From Stdlib Require Import ZArith NArith Lia List Bool Ascii String.
From Stdlib.Strings Require Import Byte.
From stdpp Require Import gmap strings list.
Import ListNotations.

Local Open Scope Z_scope.

(** ** The Go [strings] functions the parsers call *)

Module GoStrings.

(** [asciiSpace] of package [strings]: the six ASCII white-space bytes. *)
Definition asciiSpace (c : ascii) : bool :=
  match N_of_ascii c with
  | 9%N | 10%N | 11%N | 12%N | 13%N | 32%N => true
  | _ => false
  end.

(** UTF-8 encodings of the two-byte runes with [unicode.IsSpace]:
    U+0085 (C2 85) and U+00A0 (C2 A0). *)
Definition space2 (a b : ascii) : bool :=
  match N_of_ascii a, N_of_ascii b with
  | 194%N, 133%N | 194%N, 160%N => true
  | _, _ => false
  end.

(** UTF-8 encodings of the three-byte runes with [unicode.IsSpace]:
    U+1680 (E1 9A 80), U+2000..U+200A (E2 80 80..8A), U+2028, U+2029
    (E2 80 A8, A9), U+202F (E2 80 AF), U+205F (E2 81 9F), U+3000 (E3 80 80). *)
Definition space3 (a b c : ascii) : bool :=
  match N_of_ascii a, N_of_ascii b with
  | 225%N, 154%N => N.eqb (N_of_ascii c) 128
  | 226%N, 128%N =>
      let n := N_of_ascii c in
      (N.leb 128 n && N.leb n 138) || N.eqb n 168 || N.eqb n 169 || N.eqb n 175
  | 226%N, 129%N => N.eqb (N_of_ascii c) 159
  | 227%N, 128%N => N.eqb (N_of_ascii c) 128
  | _, _ => false
  end.

(** [strings.TrimLeftFunc(s, unicode.IsSpace)] on the bytes of [s]: a rune
    is a space exactly when the bytes in front are one of the encodings
    above (an invalid sequence decodes to U+FFFD, which is no space). *)
Fixpoint trimLeft (l : list ascii) : list ascii :=
  match l with
  | [] => []
  | a :: r =>
      if asciiSpace a then trimLeft r
      else match r with
           | b :: r2 =>
               if space2 a b then trimLeft r2
               else match r2 with
                    | c :: r3 => if space3 a b c then trimLeft r3 else l
                    | [] => l
                    end
           | [] => l
           end
  end.

(** [strings.TrimRightFunc(s, unicode.IsSpace)], on the reversed bytes: the
    last rune is found by stepping back over continuation bytes, so a space
    at the end is one of the same encodings read backwards. *)
Fixpoint trimRightRev (l : list ascii) : list ascii :=
  match l with
  | [] => []
  | a :: r =>
      if asciiSpace a then trimRightRev r
      else match r with
           | b :: r2 =>
               if space2 b a then trimRightRev r2
               else match r2 with
                    | c :: r3 => if space3 c b a then trimRightRev r3 else l
                    | [] => l
                    end
           | [] => l
           end
  end.

(** [strings.TrimSpace]. *)
Definition TrimSpace (s : string) : string :=
  string_of_list_ascii
    (rev (trimRightRev (rev (trimLeft (list_ascii_of_string s))))).

(** [strings.Index(s, substr)] for a one-byte [substr] (Go takes the
    [IndexByte] path then): the index of the first byte equal to [c],
    or -1. *)
Fixpoint Index (s : string) (c : ascii) : Z :=
  match s with
  | EmptyString => -1
  | String a r =>
      if Ascii.eqb a c then 0
      else let i := Index r c in if i <? 0 then -1 else i + 1
  end.

(** The slice expressions [s[:i]] and [s[i:]] for an index in range. *)
Fixpoint sliceTo (s : string) (i : nat) : string :=
  match i, s with
  | S i', String a r => String a (sliceTo r i')
  | _, _ => EmptyString
  end.

Fixpoint sliceFrom (s : string) (i : nat) : string :=
  match i, s with
  | S i', String _ r => sliceFrom r i'
  | _, _ => s
  end.

(** [strings.Split(s, sep)] for a one-byte [sep]: the pieces between the
    separators, one more piece than there are separators. *)
Fixpoint Split (s : string) (sep : ascii) : list string :=
  match s with
  | EmptyString => [EmptyString]
  | String a r =>
      if Ascii.eqb a sep then EmptyString :: Split r sep
      else match Split r sep with
           | piece :: pieces => String a piece :: pieces
           | [] => [String a EmptyString]
           end
  end.

(** [strings.ReplaceAll(s, old, new)] for a one-byte [old]. *)
Fixpoint ReplaceAll (s : string) (old : ascii) (new : string) : string :=
  match s with
  | EmptyString => EmptyString
  | String a r =>
      if Ascii.eqb a old then String.append new (ReplaceAll r old new)
      else String a (ReplaceAll r old new)
  end.

End GoStrings.

(** ** [encoding/base64]: [StdEncoding.DecodeString] *)

Module Base64.

(** The decode map of the standard alphabet. *)
Definition decodeMap (c : ascii) : option N :=
  let n := N_of_ascii c in
  if (N.leb 65 n && N.leb n 90)%bool then Some (n - 65)%N
  else if (N.leb 97 n && N.leb n 122)%bool then Some (n - 71)%N
  else if (N.leb 48 n && N.leb n 57)%bool then Some (n + 4)%N
  else if N.eqb n 43 then Some 62%N
  else if N.eqb n 47 then Some 63%N
  else None.

Definition padChar : ascii := "="%char.

Definition byteOfN (n : N) : byte :=
  match Byte.of_N (n mod 256) with
  | Some b => b
  | None => x00
  end.

(** The 24-bit value of a quantum and its bytes. *)
Definition quantum (a b c d : N) : N :=
  (a * 262144 + b * 4096 + c * 64 + d)%N.

Definition bytes3 (v : N) : list byte :=
  [byteOfN (v / 65536); byteOfN (v / 256); byteOfN v].

(** The decoder skips carriage returns and line feeds wherever they stand. *)
Definition isNewline (c : ascii) : bool :=
  match N_of_ascii c with
  | 10%N | 13%N => true
  | _ => false
  end.

(** One quantum of four characters at a time; padding is accepted only in
    the last quantum, as [xx==] or [xxx=], with nothing after it; the
    encoding is not strict, so the unused low bits are not examined. *)
Fixpoint decodeQuanta (l : list ascii) : option (list byte) :=
  match l with
  | [] => Some []
  | a :: b :: c :: d :: rest =>
      match decodeMap a, decodeMap b with
      | Some va, Some vb =>
          match decodeMap c with
          | Some vc =>
              match decodeMap d with
              | Some vd =>
                  match decodeQuanta rest with
                  | Some out => Some (bytes3 (quantum va vb vc vd) ++ out)
                  | None => None
                  end
              | None =>
                  if (Ascii.eqb d padChar) then
                    match rest with
                    | [] => Some (firstn 2 (bytes3 (quantum va vb vc 0)))
                    | _ :: _ => None
                    end
                  else None
              end
          | None =>
              if (Ascii.eqb c padChar && Ascii.eqb d padChar)%bool then
                match rest with
                | [] => Some (firstn 1 (bytes3 (quantum va vb 0 0)))
                | _ :: _ => None
                end
              else None
          end
      | _, _ => None
      end
  | _ => None
  end.

(** [base64.StdEncoding.DecodeString]; [None] stands for a non-nil error. *)
Definition DecodeString (s : string) : option (list byte) :=
  decodeQuanta
    (List.filter (fun c => negb (isNewline c)) (list_ascii_of_string s)).

End Base64.

(** ** Public keys, as far as the validator looks at them *)

Module Crypto.

(** [rsa.PublicKey]: the modulus [N] and the public exponent [E]. *)
Record rsa_PublicKey := { rsa_N : Z; rsa_E : Z }.

(** [BitLen] of [big.Int]: the length of the absolute value in bits. *)
Definition BitLen (n : Z) : Z :=
  if n =? 0 then 0 else Z.log2 (Z.abs n) + 1.

(** [Size] of [rsa.PublicKey]: the modulus size in bytes. *)
Definition Size (pub : rsa_PublicKey) : Z := Z.quot (BitLen (rsa_N pub) + 7) 8.

(** The dynamic type of the key [x509.ParsePKIXPublicKey] returns: an
    [*rsa.PublicKey], or a key of another algorithm (ECDSA, Ed25519, ...). *)
Inductive crypto_PublicKey :=
| RSAKey (k : rsa_PublicKey)
| OtherKey (algorithm : string).

(** [ed25519.PublicKeySize]. *)
Definition ed25519_PublicKeySize : Z := 32.

End Crypto.

(** ** The DKIM record parser *)

Module DKIM.
Import GoStrings Crypto.

(** The failures of the parser, one per [return nil, ...] of the source,
    named as the error taxonomy names them and carrying what the message
    formats. *)
Inductive error :=
| MalformedTag (pair : string)
| EmptyTagName
| UnsupportedVersion
| MissingPublicKey
| InvalidBase64
| UnsupportedKeyType (keyType : string)
| InvalidKeyEncoding
| KeyAlgorithmMismatch
| KeyTooShort (keyBits : Z)
| InvalidKeySize (got : Z).

Inductive result (A : Type) :=
| Ok (a : A)
| Err (e : error).
Arguments Ok {A} a.
Arguments Err {A} e.

Definition bind {A B} (r : result A) (k : A -> result B) : result B :=
  match r with
  | Ok a => k a
  | Err e => Err e
  end.

Notation "'try' x <- r 'in' k" := (bind r (fun x => k))
  (at level 10, x name, r at level 100, k at level 200).

Record DKIMRecord := {
  KeyType : string;
  PublicKey : string;
  HashAlgorithms : list string;
  Services : list string;
  Flags : list string;
  Notes : string;
  IsRevoked : bool
}.

(** Assignments to the fields of [rec]. *)
Definition set_KeyType (v : string) (r : DKIMRecord) : DKIMRecord :=
  {| KeyType := v; PublicKey := PublicKey r; HashAlgorithms := HashAlgorithms r;
     Services := Services r; Flags := Flags r; Notes := Notes r;
     IsRevoked := IsRevoked r |}.
Definition set_PublicKey (v : string) (r : DKIMRecord) : DKIMRecord :=
  {| KeyType := KeyType r; PublicKey := v; HashAlgorithms := HashAlgorithms r;
     Services := Services r; Flags := Flags r; Notes := Notes r;
     IsRevoked := IsRevoked r |}.
Definition set_HashAlgorithms (v : list string) (r : DKIMRecord) : DKIMRecord :=
  {| KeyType := KeyType r; PublicKey := PublicKey r; HashAlgorithms := v;
     Services := Services r; Flags := Flags r; Notes := Notes r;
     IsRevoked := IsRevoked r |}.
Definition set_Services (v : list string) (r : DKIMRecord) : DKIMRecord :=
  {| KeyType := KeyType r; PublicKey := PublicKey r; HashAlgorithms := HashAlgorithms r;
     Services := v; Flags := Flags r; Notes := Notes r;
     IsRevoked := IsRevoked r |}.
Definition set_Flags (v : list string) (r : DKIMRecord) : DKIMRecord :=
  {| KeyType := KeyType r; PublicKey := PublicKey r; HashAlgorithms := HashAlgorithms r;
     Services := Services r; Flags := v; Notes := Notes r;
     IsRevoked := IsRevoked r |}.
Definition set_Notes (v : string) (r : DKIMRecord) : DKIMRecord :=
  {| KeyType := KeyType r; PublicKey := PublicKey r; HashAlgorithms := HashAlgorithms r;
     Services := Services r; Flags := Flags r; Notes := v;
     IsRevoked := IsRevoked r |}.
Definition set_IsRevoked (v : bool) (r : DKIMRecord) : DKIMRecord :=
  {| KeyType := KeyType r; PublicKey := PublicKey r; HashAlgorithms := HashAlgorithms r;
     Services := Services r; Flags := Flags r; Notes := Notes r;
     IsRevoked := v |}.

(** The loop of [parseDKIMParams] over the pieces of the record, with the map
    built so far; [kv] is the loop variable [pair] of the source. *)
Fixpoint parseDKIMParams_loop (pairs : list string) (params : gmap string string)
  : result (gmap string string) :=
  match pairs with
  | [] => Ok params
  | kv :: rest =>
      let kv := TrimSpace kv in
      if String.eqb kv "" then parseDKIMParams_loop rest params
      else
        let idx := Index kv "="%char in
        if idx =? -1 then Err (MalformedTag kv)
        else
          let key := TrimSpace (sliceTo kv (Z.to_nat idx)) in
          let value := TrimSpace (sliceFrom kv (Z.to_nat (idx + 1))) in
          if String.eqb key "" then Err EmptyTagName
          else parseDKIMParams_loop rest (<[key := value]> params)
  end.

(** [parseDKIMParams]: the key=value pairs of a DKIM record. *)
Definition parseDKIMParams (s : string) : result (gmap string string) :=
  parseDKIMParams_loop (Split s ";"%char) ∅.

(** [parseTagList]: a colon-separated list of values. *)
Definition parseTagList (s : string) : list string :=
  fold_left
    (fun result p =>
       let p := TrimSpace p in
       if negb (String.eqb p "") then result ++ [p] else result)
    (Split s ":"%char) [].

(** Lines 98 to 116 of [ParseDKIM]: the h, s, t and n tags. *)
Definition parseOptionalTags (params : gmap string string) (rec : DKIMRecord)
  : DKIMRecord :=
  let rec := match params !! "h"%string with
             | Some h => set_HashAlgorithms (parseTagList h) rec
             | None => rec
             end in
  let rec := match params !! "s"%string with
             | Some s => set_Services (parseTagList s) rec
             | None => rec
             end in
  let rec := match params !! "t"%string with
             | Some t => set_Flags (parseTagList t) rec
             | None => rec
             end in
  match params !! "n"%string with
  | Some n => set_Notes n rec
  | None => rec
  end.

Section Validator.

(** [x509.ParsePKIXPublicKey] and [x509.ParsePKCS1PublicKey], the ASN.1
    decoders of the Go library; [None] stands for a non-nil error. *)
Variable ParsePKIXPublicKey : list byte -> option crypto_PublicKey.
Variable ParsePKCS1PublicKey : list byte -> option rsa_PublicKey.

(** Lines 72 to 79: PKIX first, then PKCS1. *)
Definition parseRSAKeyMaterial (b : list byte) : option crypto_PublicKey :=
  match ParsePKIXPublicKey b with
  | Some pub => Some pub
  | None =>
      match ParsePKCS1PublicKey b with
      | Some k => Some (RSAKey k)
      | None => None
      end
  end.

(** Lines 53 to 95: the branch of a non-empty p tag. *)
Definition parsePublicKey (params : gmap string string) (p : string)
    (rec : DKIMRecord) : result DKIMRecord :=
  let p := ReplaceAll p " "%char "" in
  let rec := set_PublicKey p rec in
  match Base64.DecodeString p with
  | None => Err InvalidBase64
  | Some b =>
      let rec := match params !! "k"%string with
                 | Some k => set_KeyType k rec
                 | None => rec
                 end in
      if String.eqb (KeyType rec) "rsa" || String.eqb (KeyType rec) "" then
        let rec := set_KeyType "rsa" rec in
        match parseRSAKeyMaterial b with
        | None => Err InvalidKeyEncoding
        | Some (OtherKey _) => Err KeyAlgorithmMismatch
        | Some (RSAKey rsaPub) =>
            let keyBits := Size rsaPub * 8 in
            if keyBits <? 1024 then Err (KeyTooShort keyBits) else Ok rec
        end
      else if String.eqb (KeyType rec) "ed25519" then
        if negb (Z.of_nat (length b) =? ed25519_PublicKeySize)
        then Err (InvalidKeySize (Z.of_nat (length b)))
        else Ok rec
      else Err (UnsupportedKeyType (KeyType rec))
  end.

(** [ParseDKIM]. An error of the lexer is wrapped with [%w], which keeps its
    kind. *)
Definition ParseDKIM (s : string) : result DKIMRecord :=
  try params <- parseDKIMParams s in
  let rec := {| KeyType := "rsa"; PublicKey := ""; HashAlgorithms := [];
                Services := []; Flags := []; Notes := ""; IsRevoked := false |} in
  try _ <-
    match params !! "v"%string with
    | Some v =>
        if negb (String.eqb v "DKIM1") then Err UnsupportedVersion else Ok tt
    | None => Ok tt
    end in
  match params !! "p"%string with
  | None => Err MissingPublicKey
  | Some p =>
      try rec <-
        (if String.eqb p ""
         then Ok (set_PublicKey "" (set_IsRevoked true rec))
         else parsePublicKey params p rec) in
      Ok (parseOptionalTags params rec)
  end.

End Validator.

End DKIM.

(** ** A DER decoder for RSA and Ed25519 public keys

    [DKIM.ParseDKIM] is stated for any pair of ASN.1 decoders. This module
    gives one such pair, reading the two encodings of an RSA key (PKCS1
    [RSAPublicKey] and PKIX [SubjectPublicKeyInfo]) and the PKIX encoding of
    an Ed25519 key, so that the parser can be run on the keys of the test
    suite. *)

Module DER.
Import Crypto.

Definition beN (l : list byte) : N :=
  fold_left (fun acc b => (acc * 256 + Byte.to_N b)%N) l 0%N.

(** The length octets: short form below 128, else up to four octets. *)
Definition readLength (l : list byte) : option (nat * list byte) :=
  match l with
  | [] => None
  | b :: r =>
      let n := Byte.to_N b in
      if (n <? 128)%N then Some (N.to_nat n, r)
      else
        let k := N.to_nat (n - 128) in
        if (Nat.eqb k 0 || Nat.ltb 4 k || Nat.ltb (length r) k)%bool then None
        else Some (N.to_nat (beN (firstn k r)), skipn k r)
  end.

(** One tag-length-value element: its tag, its content, what follows. *)
Definition readTLV (l : list byte) : option (byte * list byte * list byte) :=
  match l with
  | [] => None
  | tag :: r =>
      match readLength r with
      | None => None
      | Some (n, r') =>
          if Nat.ltb (length r') n then None
          else Some (tag, firstn n r', skipn n r')
      end
  end.

(** An element with the tag [t]. *)
Definition expect (t : byte) (l : list byte) : option (list byte * list byte) :=
  match readTLV l with
  | Some (tag, content, rest) =>
      if Byte.eqb tag t then Some (content, rest) else None
  | None => None
  end.

(** The value of an INTEGER: big-endian two's complement. *)
Definition integer (content : list byte) : option Z :=
  match content with
  | [] => None
  | b :: _ =>
      let v := Z.of_N (beN content) in
      if (Byte.to_N b <? 128)%N then Some v
      else Some (v - 2 ^ (8 * Z.of_nat (length content)))
  end.

(** RSAPublicKey ::= SEQUENCE { modulus INTEGER, publicExponent INTEGER } *)
Definition ParsePKCS1PublicKey (der : list byte) : option rsa_PublicKey :=
  match expect x30 der with
  | Some (body, []) =>
      match expect x02 body with
      | Some (n, body') =>
          match expect x02 body' with
          | Some (e, []) =>
              match integer n, integer e with
              | Some vn, Some ve =>
                  if (0 <? vn) && (0 <? ve) && (ve <=? 2147483647)
                  then Some {| rsa_N := vn; rsa_E := ve |}
                  else None
              | _, _ => None
              end
          | _ => None
          end
      | None => None
      end
  | _ => None
  end.

Definition oidRSA : list byte := [x2a; x86; x48; x86; xf7; x0d; x01; x01; x01].
Definition oidEd25519 : list byte := [x2b; x65; x70].

Fixpoint bytes_eqb (a b : list byte) : bool :=
  match a, b with
  | [], [] => true
  | x :: a', y :: b' => Byte.eqb x y && bytes_eqb a' b'
  | _, _ => false
  end.

(** SubjectPublicKeyInfo ::= SEQUENCE { algorithm AlgorithmIdentifier,
    subjectPublicKey BIT STRING } *)
Definition ParsePKIXPublicKey (der : list byte) : option crypto_PublicKey :=
  match expect x30 der with
  | Some (body, []) =>
      match expect x30 body with
      | Some (alg, body') =>
          match expect x03 body', expect x06 alg with
          | Some (x00 :: key, []), Some (oid, params) =>
              if bytes_eqb oid oidRSA then
                if bytes_eqb params [x05; x00] then
                  match ParsePKCS1PublicKey key with
                  | Some k => Some (RSAKey k)
                  | None => None
                  end
                else None
              else if bytes_eqb oid oidEd25519 then
                if (bytes_eqb params [] && Nat.eqb (length key) 32)%bool
                then Some (OtherKey "ed25519")
                else None
              else None
          | _, _ => None
          end
      | None => None
      end
  | _ => None
  end.

End DER.

(** ** The SPF data source: mechanism classification and lookup count *)

Module SPF.

(** The dynamic type of a [spf.Mechanism] with the fields [parseMechanism]
    reads. [Net] is the text [m.Net.String()] yields. [MechanismOther]
    stands for any type the type switch does not list. *)
Inductive MechanismVariant :=
| MechanismAll
| MechanismInclude (DomainSpec : string)
| MechanismA (DomainSpec : string)
| MechanismMX (DomainSpec : string)
| MechanismIp4 (Net : string)
| MechanismIp6 (Net : string)
| MechanismExists (DomainSpec : string)
| MechanismPTR (DomainSpec : string)
| MechanismOther.

(** A mechanism of the external parser: what its [String()] method returns,
    and its variant. *)
Record Mechanism := {
  Mechanism_String : string;
  variant : MechanismVariant
}.

(** The result of [spf.ParseSPF], as far as [Read] uses it. *)
Record spf_Record := {
  spf_Mechanisms : list Mechanism;
  spf_Redirect : string
}.

Definition formatMechanismA (DomainSpec : string) : string :=
  if String.eqb DomainSpec "" then ""%string else DomainSpec.

Definition formatMechanismMX (DomainSpec : string) : string :=
  if String.eqb DomainSpec "" then ""%string else DomainSpec.

(** [parseMechanism]: the qualifier, type and value of a mechanism. *)
Definition parseMechanism (m : Mechanism) : string * string * string :=
  let str := Mechanism_String m in
  let '(qualifier, str) :=
    match str with
    | String c rest =>
        if Ascii.eqb c "+" then ("+"%string, rest)
        else if Ascii.eqb c "-" then ("-"%string, rest)
        else if Ascii.eqb c "~" then ("~"%string, rest)
        else if Ascii.eqb c "?" then ("?"%string, rest)
        else ("+"%string, str)
    | EmptyString => ("+"%string, str)
    end in
  match variant m with
  | MechanismAll => (qualifier, "all"%string, ""%string)
  | MechanismInclude d => (qualifier, "include"%string, d)
  | MechanismA d => (qualifier, "a"%string, formatMechanismA d)
  | MechanismMX d => (qualifier, "mx"%string, formatMechanismMX d)
  | MechanismIp4 n => (qualifier, "ip4"%string, n)
  | MechanismIp6 n => (qualifier, "ip6"%string, n)
  | MechanismExists d => (qualifier, "exists"%string, d)
  | MechanismPTR d => (qualifier, "ptr"%string, d)
  | MechanismOther => (qualifier, "unknown"%string, str)
  end.

(** The [switch mechType] of [Read]: the types that require a DNS lookup. *)
Definition requiresLookup (mechType : string) : bool :=
  String.eqb mechType "include" || String.eqb mechType "a"
  || String.eqb mechType "mx" || String.eqb mechType "ptr"
  || String.eqb mechType "exists".

(** The state [Read] sets: the objects of the mechanisms list (qualifier,
    type, value), the redirect ([None] for a null string) and the count. *)
Record SPFDataSourceModel := {
  Mechanisms : list (string * string * string);
  Redirect : option string;
  DNSLookupCount : Z
}.

(** One iteration of the loop of [Read] on [dnsLookupCount] and
    [mechanismValues]. *)
Definition Read_step (st : Z * list (string * string * string)) (m : Mechanism)
  : Z * list (string * string * string) :=
  let '(dnsLookupCount, mechanismValues) := st in
  let '(qualifier, mechType, value) := parseMechanism m in
  let dnsLookupCount :=
    if requiresLookup mechType then dnsLookupCount + 1 else dnsLookupCount in
  (dnsLookupCount, mechanismValues ++ [(qualifier, mechType, value)]).

(** [Read], from the point where [spf.ParseSPF] has returned [parsed]
    (lines 132 to 172). *)
Definition Read (parsed : spf_Record) : SPFDataSourceModel :=
  let '(dnsLookupCount, mechanismValues) :=
    fold_left Read_step (spf_Mechanisms parsed) (0, []) in
  let dnsLookupCount :=
    if negb (String.eqb (spf_Redirect parsed) "")
    then dnsLookupCount + 1 else dnsLookupCount in
  {| Mechanisms := mechanismValues;
     Redirect := if negb (String.eqb (spf_Redirect parsed) "")
                 then Some (spf_Redirect parsed) else None;
     DNSLookupCount := dnsLookupCount |}.

End SPF.

(** ** What the specification says, as definitions to compare with *)

Module Spec.
Import GoStrings Crypto DKIM SPF.

(** *** Tag-value lexer (section 4.1) *)

(** A text split at the first occurrence of [c]. *)
Fixpoint cut (s : string) (c : ascii) : option (string * string) :=
  match s with
  | EmptyString => None
  | String a r =>
      if Ascii.eqb a c then Some (EmptyString, r)
      else match cut r c with
           | Some (k, v) => Some (String a k, v)
           | None => None
           end
  end.

(** [c] occurs in [s]. *)
Fixpoint occurs (c : ascii) (s : string) : Prop :=
  match s with
  | EmptyString => False
  | String a r => a = c \/ occurs c r
  end.

(** Pieces put together again with [sep] between them. *)
Fixpoint join (pieces : list string) (sep : ascii) : string :=
  match pieces with
  | [] => EmptyString
  | [piece] => piece
  | piece :: rest => String.append piece (String sep (join rest sep))
  end.

(** What one piece between semicolons amounts to. *)
Inductive segment :=
| Skipped
| Malformed (t : string)
| Nameless
| Tag (key value : string).

Definition classify (piece : string) : segment :=
  let t := TrimSpace piece in
  if String.eqb t "" then Skipped
  else match cut t "="%char with
       | None => Malformed t
       | Some (k, v) =>
           if String.eqb (TrimSpace k) "" then Nameless
           else Tag (TrimSpace k) (TrimSpace v)
       end.

Definition well_formed (piece : string) : Prop :=
  match classify piece with
  | Skipped | Tag _ _ => True
  | Malformed _ | Nameless => False
  end.

(** The tags of the well-formed pieces, in the order of the record. *)
Fixpoint tags (pieces : list string) : list (string * string) :=
  match pieces with
  | [] => []
  | piece :: rest =>
      match classify piece with
      | Tag k v => (k, v) :: tags rest
      | _ => tags rest
      end
  end.

(** Tags inserted into a map in order. *)
Definition insert_all (l : list (string * string)) (m : gmap string string)
  : gmap string string :=
  fold_left (fun acc kv => <[kv.1 := kv.2]> acc) l m.

(** [piece] is the first piece of [pieces] that is not well formed. *)
Definition first_offender (pieces : list string) (piece : string) : Prop :=
  exists before after,
    pieces = before ++ piece :: after /\ Forall well_formed before
    /\ ~ well_formed piece.

(** *** Key validator (section 4.2) *)

(** Step 2: a v tag, when present, is exactly DKIM1. *)
Definition versionOK (params : gmap string string) : Prop :=
  params !! "v"%string = None \/ params !! "v"%string = Some "DKIM1"%string.

(** Step 6 for RSA: the k tag is absent or names rsa (the source lets an
    empty k through with rsa as well). *)
Definition selectsRSA (params : gmap string string) : Prop :=
  params !! "k"%string = None \/ params !! "k"%string = Some "rsa"%string
  \/ params !! "k"%string = Some ""%string.

(** Step 9: a colon-separated list, each part trimmed, empty parts dropped. *)
Definition tagList (params : gmap string string) (tag : string) : list string :=
  match params !! tag with
  | Some v =>
      List.filter (fun p => negb (String.eqb p ""))
                  (List.map TrimSpace (Split v ":"%char))
  | None => []
  end.

Definition tagText (params : gmap string string) (tag : string) : string :=
  match params !! tag with
  | Some v => v
  | None => ""
  end.

(** The k tag, rsa when there is none. *)
Definition keyTypeTag (params : gmap string string) : string :=
  match params !! "k"%string with
  | Some k => k
  | None => "rsa"%string
  end.

(** The record [ParseDKIM] starts from. *)
Definition initialRecord : DKIMRecord :=
  {| KeyType := "rsa"; PublicKey := ""; HashAlgorithms := []; Services := [];
     Flags := []; Notes := ""; IsRevoked := false |}.

(** The record of a key: type, text of the key and the optional tags. *)
Definition keyRecord (params : gmap string string) (keyType publicKey : string)
    (revoked : bool) : DKIMRecord :=
  {| KeyType := keyType; PublicKey := publicKey;
     HashAlgorithms := tagList params "h"; Services := tagList params "s";
     Flags := tagList params "t"; Notes := tagText params "n";
     IsRevoked := revoked |}.

(** The bytes [b] are a structurally valid RSA key [k] for the decoders:
    a PKIX structure holding an RSA key or, when they are no PKIX structure,
    a PKCS1 structure. *)
Definition decodesAsRSA (pkix : list byte -> option crypto_PublicKey)
    (pkcs1 : list byte -> option rsa_PublicKey) (b : list byte)
    (k : rsa_PublicKey) : Prop :=
  pkix b = Some (RSAKey k) \/ (pkix b = None /\ pkcs1 b = Some k).

(** The invariant of a DKIM record (section 3). *)
Definition DKIMInvariant (pkix : list byte -> option crypto_PublicKey)
    (pkcs1 : list byte -> option rsa_PublicKey) (rec : DKIMRecord) : Prop :=
  (IsRevoked rec = true -> PublicKey rec = ""%string)
  /\ (IsRevoked rec = false ->
      exists b, Base64.DecodeString (PublicKey rec) = Some b
                /\ ((KeyType rec = "rsa"%string
                     /\ exists k, decodesAsRSA pkix pkcs1 b k)
                    \/ (KeyType rec = "ed25519"%string
                        /\ length b = 32%nat))).

(** The modulus size in bits that the size check compares with 1024. *)
Definition keyBits (k : rsa_PublicKey) : Z := Size k * 8.

(** White space of a folded base64 value: space, tab, CR, LF, VT, FF. *)
Definition stripWhitespace (s : string) : string :=
  string_of_list_ascii
    (List.filter (fun c => negb (asciiSpace c)) (list_ascii_of_string s)).

(** *** SPF classifier (section 4.3) *)

Definition mechQualifier (m : Mechanism) : string := (parseMechanism m).1.1.
Definition mechType (m : Mechanism) : string := (parseMechanism m).1.2.
Definition mechValue (m : Mechanism) : string := (parseMechanism m).2.

Definition lookupTypes : list string :=
  ["include"; "a"; "mx"; "ptr"; "exists"]%string.

Definition lookupVariant (v : MechanismVariant) : bool :=
  match v with
  | MechanismInclude _ | MechanismA _ | MechanismMX _
  | MechanismPTR _ | MechanismExists _ => true
  | MechanismAll | MechanismIp4 _ | MechanismIp6 _ | MechanismOther => false
  end.

Definition qualifiers : list string := ["+"; "-"; "~"; "?"]%string.

(** The qualifier a text starts with, + when it starts with none. *)
Definition qualifierOf (text : string) : string :=
  match text with
  | String c _ =>
      if bool_decide (String c EmptyString ∈ qualifiers)
      then String c EmptyString else "+"%string
  | EmptyString => "+"%string
  end.

(** The type and the value of each variant; [raw] is the text an
    unrecognized variant is given as value. *)
Definition typeOf (v : MechanismVariant) : string :=
  match v with
  | MechanismAll => "all" | MechanismInclude _ => "include"
  | MechanismA _ => "a" | MechanismMX _ => "mx"
  | MechanismIp4 _ => "ip4" | MechanismIp6 _ => "ip6"
  | MechanismExists _ => "exists" | MechanismPTR _ => "ptr"
  | MechanismOther => "unknown"
  end%string.

Definition valueOf (v : MechanismVariant) (raw : string) : string :=
  match v with
  | MechanismAll => ""%string
  | MechanismInclude d | MechanismA d | MechanismMX d
  | MechanismExists d | MechanismPTR d => d
  | MechanismIp4 n | MechanismIp6 n => n
  | MechanismOther => raw
  end.

(** The text of a mechanism without its leading qualifier character. *)
Definition withoutQualifier (text : string) : string :=
  match text with
  | String c rest =>
      if bool_decide (String c EmptyString ∈ qualifiers) then rest else text
  | EmptyString => text
  end.

End Spec.

(** ** Records and keys the development is run on *)

Module Samples.
Import Crypto DKIM SPF.

(** The RSA key of [TestParseDKIM_Valid] (PKIX, 1024 bits). *)
Definition testKey : string :=
  "MIGfMA0GCSqGSIb3DQEBAQUAA4GNADCBiQKBgQDHUigNmWXWQU1xMaOc4Xq1L1Lo8y8qFzqZ6rQNLzb+j3YwjBwEHC9oNWcXqrAqsBgBfJmC7BDL0x6IdCaNEyL3Q3KvQZPksLLzqN5IaMTWYhE7bX4k8HKkAWrJJVaQaXW7/HmAK8Y8htTPxCmKJHQI8V3dWH/JOoq3BlJZu2e22QIDAQAB".

(** A PKCS1 RSA key with a modulus of 512 bits. *)
Definition shortKey : string :=
  "MEgCQQCSNFZ4kKvN7xI0VniQq83vEjRWeJCrze8SNFZ4kKvN7xI0VniQq83vEjRWeJCrze8SNFZ4kKvN7xI0VniQq83vAgMBAAE=".

(** An Ed25519 key (bytes 0 to 31): raw, as DKIM publishes it, and wrapped
    in a PKIX structure. *)
Definition edKey : string := "AAECAwQFBgcICQoLDA0ODxAREhMUFRYXGBkaGxwdHh8=".
Definition edKeyPKIX : string :=
  "MCowBQYDK2VwAyEAAAECAwQFBgcICQoLDA0ODxAREhMUFRYXGBkaGxwdHh8=".

(** [edKey] folded with a horizontal tab in the middle. *)
Definition edKeyTab : string :=
  String.append "AAECAwQFBgcICQoLDA0O"
    (String "009"%char "DxAREhMUFRYXGBkaGxwdHh8=").

(** [edKey] folded with a space, and with a line feed. *)
Definition edKeySpace : string :=
  "AAECAwQFBgcICQoLDA0O DxAREhMUFRYXGBkaGxwdHh8=".
Definition edKeyNewline : string :=
  String.append "AAECAwQFBgcICQoLDA0O"
    (String "010"%char "DxAREhMUFRYXGBkaGxwdHh8=").

(** The parser over the DER decoders. *)
Definition parse : string -> result DKIMRecord :=
  ParseDKIM DER.ParsePKIXPublicKey DER.ParsePKCS1PublicKey.

(** The bytes of a base64 text and the RSA key in them. *)
Definition bytesOf (text : string) : list byte :=
  match Base64.DecodeString text with
  | Some b => b
  | None => []
  end.

Definition rsaKeyOf (text : string) : rsa_PublicKey :=
  match parseRSAKeyMaterial DER.ParsePKIXPublicKey DER.ParsePKCS1PublicKey
          (bytesOf text) with
  | Some (RSAKey k) => k
  | _ => {| rsa_N := 0; rsa_E := 0 |}
  end.

(** A record with the tags [v], [k] and [p], and its tag map. *)
Definition recordOf (v k p : string) : string :=
  String.append "v="
    (String.append v (String.append "; k=" (String.append k
       (String.append "; p=" p)))).

Definition paramsOf (v k p : string) : gmap string string :=
  <["p"%string := p]> (<["k"%string := k]> (<["v"%string := v]> ∅)).

(** The revoked record of [TestParseDKIM_RevokedKey], and one with tags. *)
Definition revokedRecord : string := "v=DKIM1; p=".
Definition revokedParams : gmap string string :=
  <["p"%string := ""%string]> (<["v"%string := "DKIM1"%string]> ∅).
Definition revokedTagged : string :=
  "k=ed25519; p= ; h=sha1: sha256 ::x; t=y:s; n=rotated out".

(** The mechanisms of [v=spf1 +a include:_spf.google.com ip4:192.0.2.0/24 -all]. *)
Definition googleMechanisms : list Mechanism :=
  [ {| Mechanism_String := "+a"; variant := MechanismA "" |};
    {| Mechanism_String := "include:_spf.google.com";
       variant := MechanismInclude "_spf.google.com" |};
    {| Mechanism_String := "ip4:192.0.2.0/24";
       variant := MechanismIp4 "192.0.2.0/24" |};
    {| Mechanism_String := "-all"; variant := MechanismAll |} ].

(** A mechanism of a type the classifier does not list. *)
Definition futureMechanism : Mechanism :=
  {| Mechanism_String := "-future:example.com"; variant := MechanismOther |}.

End Samples.

(** ** Leading white space, for reasoning about [TrimSpace] *)

Module Trim.
Import GoStrings.

Section Lead.

Variable s2 : ascii -> ascii -> bool.
Variable s3 : ascii -> ascii -> ascii -> bool.

(** The number of bytes of the space sequence a text starts with, 0 when it
    starts with none; [s2] and [s3] recognise the sequences of two and of
    three bytes. *)
Definition lead (l : list ascii) : nat :=
  match l with
  | [] => 0
  | a :: r =>
      if asciiSpace a then 1
      else match r with
           | b :: r2 =>
               if s2 a b then 2
               else match r2 with
                    | c :: _ => if s3 a b c then 3 else 0
                    | [] => 0
                    end
           | [] => 0
           end
  end%nat.

End Lead.

(** Read forwards, as [trimLeft] does, and backwards, as [trimRightRev]. *)
Definition leadLeft : list ascii -> nat := lead space2 space3.
Definition leadRight : list ascii -> nat :=
  lead (fun a b => space2 b a) (fun a b c => space3 c b a).

End Trim.

(** ** The DKIM data source *)

Module Terraform.

(** [types.String], [types.Bool] and [types.List] of the plugin framework:
    null, unknown or a known value. *)
Inductive tf_String :=
| StringNull
| StringUnknown
| StringValue (s : string).

Inductive tf_Bool :=
| BoolNull
| BoolUnknown
| BoolValue (b : bool).

Inductive tf_List :=
| ListNull
| ListUnknown
| ListValue (elements : list tf_String).

(** [ValueString]: the known value, the empty string for null and unknown. *)
Definition ValueString (v : tf_String) : string :=
  match v with
  | StringValue s => s
  | _ => EmptyString
  end.

End Terraform.

Module DKIMDataSource.
Import Terraform.

(** [convertStringSliceToList]: a Go string slice as a Terraform list, null
    for a slice of length 0. The conversion of string values to a list of
    strings reports no diagnostics. *)
Definition convertStringSliceToList (slice : list string) : tf_List :=
  if Nat.eqb (length slice) 0 then ListNull
  else ListValue (List.map StringValue slice).

(** [DKIMDataSourceModel]; [Record_] is the field [Record]. *)
Record DKIMDataSourceModel := {
  Record_ : tf_String;
  KeyType : tf_String;
  PublicKey : tf_String;
  HashAlgorithms : tf_List;
  Services : tf_List;
  Flags : tf_List;
  Notes : tf_String;
  IsRevoked : tf_Bool
}.

(** An error diagnostic: its summary and the arguments its detail text is
    formatted from, the error and, where the text names it, the record. *)
Record Diagnostic := {
  Summary : string;
  DetailError : DKIM.error;
  DetailRecord : option string
}.

Section DataSource.

Variable ParsePKIXPublicKey : list byte -> option Crypto.crypto_PublicKey.
Variable ParsePKCS1PublicKey : list byte -> option Crypto.rsa_PublicKey.

(** [Read], once [req.Config.Get] has filled [data] without error: the
    diagnostics it adds and the state it sets, if it sets one. *)
Definition Read (data_Record : tf_String)
  : list Diagnostic * option DKIMDataSourceModel :=
  let record := ValueString data_Record in
  match DKIM.ParseDKIM ParsePKIXPublicKey ParsePKCS1PublicKey record with
  | DKIM.Err err =>
      ([ {| Summary := "Invalid DKIM Record"; DetailError := err;
            DetailRecord := None |} ], None)
  | DKIM.Ok parsed =>
      ([], Some {|
         Record_ := data_Record;
         KeyType := StringValue (DKIM.KeyType parsed);
         IsRevoked := BoolValue (DKIM.IsRevoked parsed);
         PublicKey :=
           if negb (String.eqb (DKIM.PublicKey parsed) "")
           then StringValue (DKIM.PublicKey parsed) else StringNull;
         Notes :=
           if negb (String.eqb (DKIM.Notes parsed) "")
           then StringValue (DKIM.Notes parsed) else StringNull;
         HashAlgorithms := convertStringSliceToList (DKIM.HashAlgorithms parsed);
         Services := convertStringSliceToList (DKIM.Services parsed);
         Flags := convertStringSliceToList (DKIM.Flags parsed) |})
  end.

End DataSource.

End DKIMDataSource.

(** ** Further definitions the properties are stated with *)

Module Cover.
Import GoStrings Crypto DKIM SPF Spec Terraform.

(** The tags [ParseDKIM] looks up. *)
Definition knownTags : list string := ["v"; "p"; "k"; "h"; "s"; "t"; "n"]%string.

(** The types [parseMechanism] gives. *)
Definition mechTypes : list string :=
  ["all"; "include"; "a"; "mx"; "ip4"; "ip6"; "exists"; "ptr"; "unknown"]%string.

(** The strings of a Terraform list, none for a null or unknown list. *)
Definition elementsOf (l : tf_List) : list string :=
  match l with
  | ListValue elements => List.map ValueString elements
  | _ => []
  end.

(** A text appended to another with a separator between them. *)
Definition joined (a : string) (sep : ascii) (b : string) : string :=
  String.append a (String sep b).

(** The decoded bytes pass the checks of the key type the k tag selects. *)
Definition validBytes (pkix : list byte -> option crypto_PublicKey)
    (pkcs1 : list byte -> option rsa_PublicKey)
    (params : gmap string string) (b : list byte) : Prop :=
  (selectsRSA params
   /\ exists k, decodesAsRSA pkix pkcs1 b k /\ 1024 <= keyBits k)
  \/ (params !! "k"%string = Some "ed25519"%string /\ length b = 32%nat).

(** A key text that decodes and passes the checks of its type. *)
Definition validKey (pkix : list byte -> option crypto_PublicKey)
    (pkcs1 : list byte -> option rsa_PublicKey)
    (params : gmap string string) (p : string) : Prop :=
  exists b, Base64.DecodeString (ReplaceAll p " " "") = Some b
            /\ validBytes pkix pkcs1 params b.

(** The version check on the tag map. *)
Definition versionOKb (params : gmap string string) : bool :=
  match params !! "v"%string with
  | Some v => String.eqb v "DKIM1"
  | None => true
  end.

(** What becomes of a key text [p] with the decoded bytes [b]. *)
Definition keyOutcome (pkix : list byte -> option crypto_PublicKey)
    (pkcs1 : list byte -> option rsa_PublicKey)
    (params : gmap string string) (p : string) (b : list byte)
  : result DKIMRecord :=
  let kt := keyTypeTag params in
  let text := ReplaceAll p " " "" in
  if String.eqb kt "rsa" || String.eqb kt "" then
    match parseRSAKeyMaterial pkix pkcs1 b with
    | None => Err InvalidKeyEncoding
    | Some (OtherKey _) => Err KeyAlgorithmMismatch
    | Some (RSAKey k) =>
        if keyBits k <? 1024 then Err (KeyTooShort (keyBits k))
        else Ok (keyRecord params "rsa" text false)
    end
  else if String.eqb kt "ed25519" then
    if negb (Z.of_nat (length b) =? 32)
    then Err (InvalidKeySize (Z.of_nat (length b)))
    else Ok (keyRecord params "ed25519" text false)
  else Err (UnsupportedKeyType kt).

(** What becomes of a tag map: the checks in the order of the steps of
    section 4.2. *)
Definition outcome (pkix : list byte -> option crypto_PublicKey)
    (pkcs1 : list byte -> option rsa_PublicKey)
    (params : gmap string string) : result DKIMRecord :=
  if negb (versionOKb params) then Err UnsupportedVersion
  else match params !! "p"%string with
       | None => Err MissingPublicKey
       | Some p =>
           if String.eqb p "" then Ok (keyRecord params "rsa" "" true)
           else match Base64.DecodeString (ReplaceAll p " " "") with
                | None => Err InvalidBase64
                | Some b => keyOutcome pkix pkcs1 params p b
                end
       end.

(** The errors of the checks on the decoded key. *)
Definition keyError (e : error) : Prop :=
  match e with
  | InvalidKeyEncoding | KeyAlgorithmMismatch | KeyTooShort _
  | InvalidKeySize _ | UnsupportedKeyType _ => True
  | _ => False
  end.

(** A PKCS1 RSA key with a modulus of 1017 bits (128 bytes). *)
Definition key1017 : string :=
  "MIGIAoGAAVIoDZll1kFNcTGjnOF6tS9S6PMvKhc6meq0DS82/o92MIwcBBwvaDVnF6qwKrAYAXyZguwQy9MeiHQmjRMi90Nyr0GT5LCy86jeSGjE1mIRO21+JPBypAFqySVWkGl1u/x5gCvGPIbUz8QpiiR0CPFd3Vh/yTqKtwZSWbtnttkCAwEAAQ==".

(** [n] include mechanisms. *)
Definition includes (n : nat) : list Mechanism :=
  repeat {| Mechanism_String := "include:example.com";
            variant := MechanismInclude "example.com" |} n.

End Cover.

(** * Properties *)

(** ** The SPF classifier *)

Module SPFProps.
Import SPF Spec Samples.

(** The type [parseMechanism] gives depends on the variant alone. *)
Lemma mechType_variant (m : Mechanism) :
  mechType m = typeOf (variant m).
Proof.
  unfold mechType, parseMechanism.
  destruct (Mechanism_String m) as [|c rest]; [destruct (variant m); reflexivity|].
  repeat (match goal with |- context [Ascii.eqb ?a ?b] => destruct (Ascii.eqb a b) end);
    destruct (variant m); reflexivity.
Qed.

(** The switch of [Read] tests membership in the lookup types. *)
Lemma requiresLookup_spec (t : string) :
  requiresLookup t = true <-> t ∈ lookupTypes.
Proof.
  unfold requiresLookup, lookupTypes.
  rewrite !orb_true_iff, !String.eqb_eq, !elem_of_cons, elem_of_nil.
  tauto.
Qed.

Lemma requiresLookup_variant (m : Mechanism) :
  requiresLookup (mechType m) = lookupVariant (variant m).
Proof. rewrite mechType_variant. destruct (variant m); reflexivity. Qed.

(** The loop of [Read], from any state: the count grows by the number of
    lookup mechanisms, the list by the classified triples in order. *)
Lemma Read_loop (ms : list Mechanism) (n : Z) (acc : list (string * string * string)) :
  fold_left Read_step ms (n, acc) =
  (n + Z.of_nat (length (filter (λ m, mechType m ∈ lookupTypes) ms)),
   acc ++ List.map parseMechanism ms).
Proof.
  revert n acc. induction ms as [|m ms IH]; intros n acc; simpl.
  - rewrite Z.add_0_r, app_nil_r. reflexivity.
  - rewrite filter_cons.
    assert (Ht : mechType m = (parseMechanism m).1.2) by reflexivity.
    destruct (parseMechanism m) as [[q t] v]. simpl in Ht. rewrite Ht.
    rewrite IH, <- app_assoc. simpl.
    destruct (decide (t ∈ lookupTypes)) as [Hin|Hout].
    + apply requiresLookup_spec in Hin. rewrite Hin. simpl length.
      f_equal. lia.
    + destruct (requiresLookup t) eqn:Hr.
      * apply requiresLookup_spec in Hr. contradiction.
      * reflexivity.
Qed.

Lemma Read_count (ms : list Mechanism) (redirect : string) :
  DNSLookupCount (Read {| spf_Mechanisms := ms; spf_Redirect := redirect |}) =
  Z.of_nat (length (filter (λ m, mechType m ∈ lookupTypes) ms))
  + (if String.eqb redirect "" then 0 else 1).
Proof.
  unfold Read. simpl. rewrite Read_loop. simpl.
  destruct (String.eqb redirect ""); simpl; lia.
Qed.

Lemma Read_mechanisms (parsed : spf_Record) :
  Mechanisms (Read parsed) = List.map parseMechanism (spf_Mechanisms parsed).
Proof.
  unfold Read. rewrite Read_loop. simpl. reflexivity.
Qed.

(** C1: the lookup count of [Read] is the number of mechanisms whose
    classified type is include, a, mx, ptr or exists (those are the
    mechanisms of these five variants; all, ip4 and ip6 never count), plus
    one when the redirect is present (not the empty string); so a present
    redirect makes the count exactly one greater than an absent one over the
    same mechanisms. *)
Theorem dns_lookup_count (ms : list Mechanism) (redirect : string) :
  let count r :=
    DNSLookupCount (Read {| spf_Mechanisms := ms; spf_Redirect := r |}) in
  count redirect =
    Z.of_nat (length (filter (λ m, mechType m ∈ lookupTypes) ms))
    + (if decide (redirect = ""%string) then 0 else 1)
  /\ filter (λ m, mechType m ∈ lookupTypes) ms =
     filter (λ m, lookupVariant (variant m) = true) ms
  /\ (forall m, mechType m ∈ ["all"; "ip4"; "ip6"]%string ->
        mechType m ∉ lookupTypes)
  /\ (forall c r, count (String c r) = count ""%string + 1).
Proof.
  cbv zeta. repeat split.
  - rewrite Read_count.
    destruct (decide (redirect = ""%string)) as [->|Hne]; [reflexivity|].
    apply String.eqb_neq in Hne. rewrite Hne. reflexivity.
  - apply list_filter_iff. intros m.
    rewrite <- requiresLookup_variant. symmetry. apply requiresLookup_spec.
  - intros m Hm. unfold lookupTypes.
    rewrite !elem_of_cons, elem_of_nil in *.
    intros Hl. destruct Hm as [Hm|[Hm|[Hm|[]]]]; rewrite Hm in Hl;
      intuition discriminate.
  - intros c r. rewrite !Read_count. simpl. lia.
Qed.

(** The mechanisms of the specification's example need two lookups, three
    with a redirect. *)
Example google_lookups :
  DNSLookupCount (Read {| spf_Mechanisms := googleMechanisms; spf_Redirect := "" |}) = 2
  /\ DNSLookupCount (Read {| spf_Mechanisms := googleMechanisms;
                             spf_Redirect := "example.com" |}) = 3
  /\ Mechanisms (Read {| spf_Mechanisms := googleMechanisms; spf_Redirect := "" |})
       !! 3%nat = Some ("-", "all", "")%string.
Proof. repeat split. Qed.

(** The qualifier is the leading character when that is one of the four,
    and + otherwise; the value is chosen by the variant, the unknown type
    keeping the text without the qualifier. *)
Lemma parseMechanism_spec (m : Mechanism) :
  parseMechanism m =
  (qualifierOf (Mechanism_String m),
   typeOf (variant m),
   valueOf (variant m) (withoutQualifier (Mechanism_String m))).
Proof.
  unfold parseMechanism, qualifierOf, withoutQualifier.
  destruct (Mechanism_String m) as [|c rest].
  { destruct (variant m) as [|d|d|d| | | | |]; try reflexivity;
      destruct d; reflexivity. }
  assert (Hq : forall q : ascii,
             String q EmptyString ∈ qualifiers ->
             bool_decide (String q EmptyString ∈ qualifiers) = true)
    by (intros; apply bool_decide_eq_true_2; assumption).
  destruct (Ascii.eqb c "+") eqn:E1;
    [apply Ascii.eqb_eq in E1; subst c|
     destruct (Ascii.eqb c "-") eqn:E2;
     [apply Ascii.eqb_eq in E2; subst c|
      destruct (Ascii.eqb c "~") eqn:E3;
      [apply Ascii.eqb_eq in E3; subst c|
       destruct (Ascii.eqb c "?") eqn:E4;
       [apply Ascii.eqb_eq in E4; subst c|]]]].
  1-4: rewrite Hq by (unfold qualifiers; rewrite !elem_of_cons; tauto);
       destruct (variant m) as [|d|d|d| | | | |]; try reflexivity;
       destruct d; reflexivity.
  apply Ascii.eqb_neq in E1, E2, E3, E4.
  rewrite bool_decide_eq_false_2.
  - destruct (variant m) as [|d|d|d| | | | |]; try reflexivity;
      destruct d; reflexivity.
  - unfold qualifiers. rewrite !elem_of_cons, elem_of_nil.
    intros [H|[H|[H|[H|[]]]]]; congruence.
Qed.

(** The claim as it stands fails on a qualified mechanism of an unlisted
    type: the value is the text without its qualifier, not the verbatim
    text. *)
Lemma unknown_value_not_verbatim :
  variant futureMechanism = MechanismOther
  /\ Mechanism_String futureMechanism = "-future:example.com"%string
  /\ parseMechanism futureMechanism = ("-", "unknown", "future:example.com")%string
  /\ mechValue futureMechanism <> Mechanism_String futureMechanism.
Proof. repeat split. discriminate. Qed.

Lemma withoutQualifier_spec (text : string) :
  (qualifierOf text = "+"%string /\ withoutQualifier text = text)
  \/ (qualifierOf text ∈ qualifiers
      /\ text = String.append (qualifierOf text) (withoutQualifier text)).
Proof.
  unfold qualifierOf, withoutQualifier.
  destruct text as [|c rest]; [left; split; reflexivity|].
  destruct (bool_decide (String c EmptyString ∈ qualifiers)) eqn:Hq.
  - right. apply bool_decide_eq_true_1 in Hq. split; [assumption|reflexivity].
  - left. split; reflexivity.
Qed.

(** C6: classification is a total projection: [Read] returns one triple
    per mechanism of the external parser, in the same order, each the
    triple [parseMechanism] gives, whatever the mechanisms are; a mechanism
    of a variant the classifier does not list gets the type unknown and its
    source text, less the leading qualifier character when it has one, as
    value (so the verbatim text when it starts with no qualifier). *)
Theorem classifier_total (parsed : spf_Record) :
  Mechanisms (Read parsed) = List.map parseMechanism (spf_Mechanisms parsed)
  /\ length (Mechanisms (Read parsed)) = length (spf_Mechanisms parsed)
  /\ (forall (i : nat) (m : Mechanism),
        spf_Mechanisms parsed !! i = Some m ->
        Mechanisms (Read parsed) !! i = Some (parseMechanism m))
  /\ (forall m : Mechanism,
        variant m = MechanismOther ->
        parseMechanism m =
          (qualifierOf (Mechanism_String m), "unknown"%string,
           withoutQualifier (Mechanism_String m))
        /\ qualifierOf (Mechanism_String m) ∈ qualifiers
        /\ (withoutQualifier (Mechanism_String m) = Mechanism_String m
            \/ Mechanism_String m =
                 String.append (qualifierOf (Mechanism_String m))
                               (withoutQualifier (Mechanism_String m)))).
Proof.
  rewrite Read_mechanisms. split; [reflexivity|].
  split; [apply length_map|].
  split.
  - intros i m Hm. rewrite list_lookup_fmap, Hm. reflexivity.
  - intros m Hv. split; [|split].
    + rewrite parseMechanism_spec, Hv. reflexivity.
    + destruct (withoutQualifier_spec (Mechanism_String m)) as [[-> _]|[H _]];
        [unfold qualifiers; rewrite elem_of_cons; left; reflexivity|exact H].
    + destruct (withoutQualifier_spec (Mechanism_String m)) as [[_ H]|[_ H]];
        [left; exact H|right; exact H].
Qed.

End SPFProps.

(** ** The Go string functions *)

Module GoStringsProps.
Import GoStrings Spec.

Lemma Index_lower (s : string) (c : ascii) : -1 <= Index s c.
Proof.
  induction s as [|a r IH]; simpl; [lia|].
  destruct (Ascii.eqb a c); [lia|].
  destruct (Index r c <? 0) eqn:E; [lia|]. apply Z.ltb_ge in E. lia.
Qed.

(** [Index] finds where [cut] cuts: the slices around the index are the two
    halves, and there is no index when there is no cut. *)
Lemma Index_cut (s : string) (c : ascii) :
  match cut s c with
  | Some (k, v) =>
      Index s c = Z.of_nat (String.length k)
      /\ sliceTo s (String.length k) = k
      /\ sliceFrom s (S (String.length k)) = v
  | None => Index s c = -1
  end.
Proof.
  induction s as [|a r IH]; simpl; [reflexivity|].
  destruct (Ascii.eqb a c); [repeat split; destruct r; reflexivity|].
  destruct (cut r c) as [[k v]|].
  - destruct IH as (Hi & Hk & Hv). rewrite Hi.
    destruct (Z.of_nat (String.length k) <? 0) eqn:E;
      [apply Z.ltb_lt in E; lia|].
    simpl. rewrite Hk, Hv. repeat split. lia.
  - rewrite IH. reflexivity.
Qed.

(** [cut] splits at the first occurrence. *)
Lemma cut_sound (s : string) (c : ascii) (k v : string) :
  cut s c = Some (k, v) ->
  s = String.append k (String c v) /\ ~ occurs c k.
Proof.
  revert k. induction s as [|a r IH]; intros k; simpl; [discriminate|].
  destruct (Ascii.eqb a c) eqn:E.
  - apply Ascii.eqb_eq in E. subst a.
    intros [= <- <-]. split; [reflexivity|]. simpl. tauto.
  - apply Ascii.eqb_neq in E. destruct (cut r c) as [[k' v']|]; [|discriminate].
    intros [= <- <-]. destruct (IH k' eq_refl) as [-> Hk'].
    split; [reflexivity|]. simpl. tauto.
Qed.

Lemma cut_complete (k v : string) (c : ascii) :
  ~ occurs c k -> cut (String.append k (String c v)) c = Some (k, v).
Proof.
  induction k as [|a k IH]; simpl; intros Hk.
  - rewrite Ascii.eqb_refl. reflexivity.
  - destruct (Ascii.eqb a c) eqn:E.
    + apply Ascii.eqb_eq in E. tauto.
    + rewrite IH by tauto. reflexivity.
Qed.

Lemma cut_Some (s : string) (c : ascii) (k v : string) :
  cut s c = Some (k, v) <->
  s = String.append k (String c v) /\ ~ occurs c k.
Proof.
  split; [apply cut_sound|]. intros [-> Hk]. apply cut_complete, Hk.
Qed.

Lemma cut_None (s : string) (c : ascii) :
  cut s c = None <-> ~ occurs c s.
Proof.
  induction s as [|a r IH]; simpl; [tauto|].
  destruct (Ascii.eqb a c) eqn:E.
  - apply Ascii.eqb_eq in E. split; [discriminate|tauto].
  - apply Ascii.eqb_neq in E. destruct (cut r c) as [[k v]|].
    + split; [discriminate|]. intros H. exfalso.
      assert (Hn : ~ occurs c r) by tauto.
      apply IH in Hn. discriminate.
    + split; [|reflexivity]. intros _ [H|H]; [contradiction|].
      destruct IH as [IH _]. exact (IH eq_refl H).
Qed.

(** [Split] gives at least one piece. *)
Lemma Split_nonempty (s : string) (sep : ascii) : Split s sep <> [].
Proof.
  destruct s as [|a r]; simpl; [discriminate|].
  destruct (Ascii.eqb a sep); [discriminate|].
  destruct (Split r sep); discriminate.
Qed.

(** No piece holds the separator, and the pieces joined by the separator
    are the text. *)
Lemma Split_join (s : string) (sep : ascii) :
  join (Split s sep) sep = s
  /\ Forall (fun piece => ~ occurs sep piece) (Split s sep).
Proof.
  induction s as [|a r [IHj IHf]]; simpl.
  - split; [reflexivity|]. constructor; [simpl; tauto|constructor].
  - pose proof (Split_nonempty r sep) as Hne.
    destruct (Ascii.eqb a sep) eqn:E.
    + apply Ascii.eqb_eq in E. subst a. split.
      * destruct (Split r sep) as [|p ps]; [contradiction|].
        change (String sep (join (p :: ps) sep) = String sep r).
        rewrite IHj. reflexivity.
      * constructor; [simpl; tauto|exact IHf].
    + apply Ascii.eqb_neq in E.
      destruct (Split r sep) as [|p ps]; [contradiction|]. split.
      * transitivity (String a (join (p :: ps) sep));
          [destruct ps; reflexivity|rewrite IHj; reflexivity].
      * inversion IHf as [|? ? Hp Hps]; subst.
        constructor; [simpl; tauto|exact Hps].
Qed.

(** [ReplaceAll] with an empty replacement leaves no [old] behind and keeps
    every other byte. *)
Lemma ReplaceAll_removes (s : string) (old : ascii) :
  list_ascii_of_string (ReplaceAll s old "") =
  List.filter (fun c => negb (Ascii.eqb c old)) (list_ascii_of_string s).
Proof.
  induction s as [|a r IH]; simpl; [reflexivity|].
  destruct (Ascii.eqb a old); simpl; [exact IH|rewrite IH; reflexivity].
Qed.

End GoStringsProps.

(** ** The tag-value lexer *)

Module LexerProps.
Import GoStrings DKIM Spec Samples GoStringsProps.

(** One iteration of the loop does what the classification of the piece
    says. *)
Lemma loop_cons (piece : string) (rest : list string) (m : gmap string string) :
  parseDKIMParams_loop (piece :: rest) m =
  match classify piece with
  | Skipped => parseDKIMParams_loop rest m
  | Malformed t => Err (MalformedTag t)
  | Nameless => Err EmptyTagName
  | Tag k v => parseDKIMParams_loop rest (<[k := v]> m)
  end.
Proof.
  unfold classify. cbn [parseDKIMParams_loop].
  destruct (String.eqb (TrimSpace piece) ""); [reflexivity|].
  pose proof (Index_cut (TrimSpace piece) "="%char) as H.
  destruct (cut (TrimSpace piece) "="%char) as [[k v]|].
  - destruct H as (Hi & Hk & Hv). rewrite Hi.
    replace (Z.of_nat (String.length k) =? -1) with false
      by (symmetry; apply Z.eqb_neq; lia).
    rewrite Nat2Z.id.
    replace (Z.to_nat (Z.of_nat (String.length k) + 1)) with (S (String.length k))
      by lia.
    rewrite Hk, Hv. destruct (String.eqb (TrimSpace k) ""); reflexivity.
  - rewrite H. reflexivity.
Qed.

(** What each class of piece means in terms of the text. *)
Lemma classify_meaning (piece : string) :
  match classify piece with
  | Skipped => TrimSpace piece = ""%string
  | Malformed t =>
      t = TrimSpace piece /\ t <> ""%string /\ ~ occurs "="%char t
  | Nameless =>
      exists k v, TrimSpace piece = String.append k (String "="%char v)
                  /\ ~ occurs "="%char k /\ TrimSpace k = ""%string
  | Tag key value =>
      exists k v, TrimSpace piece = String.append k (String "="%char v)
                  /\ ~ occurs "="%char k
                  /\ key = TrimSpace k /\ key <> ""%string
                  /\ value = TrimSpace v
  end.
Proof.
  unfold classify.
  destruct (String.eqb (TrimSpace piece) "") eqn:E;
    [apply String.eqb_eq in E; exact E|apply String.eqb_neq in E].
  destruct (cut (TrimSpace piece) "="%char) as [[k v]|] eqn:Hc.
  - apply cut_sound in Hc. destruct Hc as [Ht Hk].
    destruct (String.eqb (TrimSpace k) "") eqn:Ek.
    + apply String.eqb_eq in Ek. exists k, v. tauto.
    + apply String.eqb_neq in Ek. exists k, v. tauto.
  - apply cut_None in Hc. tauto.
Qed.

Lemma well_formed_dec (piece : string) :
  {well_formed piece} + {~ well_formed piece}.
Proof.
  unfold well_formed. destruct (classify piece); (left; exact I) || (right; tauto).
Defined.

(** Over well-formed pieces the loop inserts their tags in order. *)
Lemma loop_app (before rest : list string) (m : gmap string string) :
  Forall well_formed before ->
  parseDKIMParams_loop (before ++ rest) m =
  parseDKIMParams_loop rest (insert_all (tags before) m).
Proof.
  intros Hwf. revert m. induction Hwf as [|x before Hx _ IH]; intros m.
  - reflexivity.
  - rewrite <- app_comm_cons, loop_cons. unfold well_formed in Hx.
    cbn [tags]. destruct (classify x); try contradiction; apply IH.
Qed.

Lemma loop_well_formed (pieces : list string) (m : gmap string string) :
  Forall well_formed pieces ->
  parseDKIMParams_loop pieces m = Ok (insert_all (tags pieces) m).
Proof.
  intros Hwf. rewrite <- (app_nil_r pieces) at 1.
  rewrite loop_app by assumption. reflexivity.
Qed.

(** The loop stops at the first piece that is not well formed, with the
    error of that piece. *)
Lemma loop_offender (pieces : list string) (piece : string) (m : gmap string string) :
  first_offender pieces piece ->
  parseDKIMParams_loop pieces m =
  match classify piece with
  | Malformed t => Err (MalformedTag t)
  | _ => Err EmptyTagName
  end.
Proof.
  intros (before & after & -> & Hwf & Hbad).
  rewrite loop_app, loop_cons by assumption.
  unfold well_formed in Hbad. destruct (classify piece); tauto.
Qed.

Lemma offender_or_well_formed (pieces : list string) :
  Forall well_formed pieces \/ exists piece, first_offender pieces piece.
Proof.
  induction pieces as [|x rest IH]; [left; constructor|].
  destruct (well_formed_dec x) as [Hx|Hx].
  - destruct IH as [IH|(piece & before & after & -> & Hwf & Hbad)].
    + left. constructor; assumption.
    + right. exists piece, (x :: before), after.
      split; [reflexivity|]. split; [constructor; assumption|assumption].
  - right. exists x, [], rest. split; [reflexivity|]. split; [constructor|assumption].
Qed.

(** A key that is not inserted keeps its value; the last insertion of a key
    is the one that stays. *)
Lemma insert_all_other (l : list (string * string)) (m : gmap string string) (k : string) :
  k ∉ l.*1 -> insert_all l m !! k = m !! k.
Proof.
  revert m. induction l as [|[k' v'] l IH]; intros m Hk; [reflexivity|].
  rewrite fmap_cons, not_elem_of_cons in Hk. destruct Hk as [Hne Hk].
  unfold insert_all in *. cbn [fold_left]. rewrite IH by assumption.
  apply lookup_insert_ne. intros Heq. apply Hne. symmetry. exact Heq.
Qed.

Lemma insert_all_last (before after : list (string * string))
    (m : gmap string string) (k v : string) :
  k ∉ after.*1 ->
  insert_all (before ++ (k, v) :: after) m !! k = Some v.
Proof.
  intros Hk. unfold insert_all. rewrite fold_left_app. cbn [fold_left].
  fold (insert_all after (<[k := v]> (insert_all before m))).
  rewrite insert_all_other by assumption. apply lookup_insert_eq.
Qed.

(** The claim as it stands fails where two pieces are at fault: the piece
    [foo] holds no [=], and the lexer fails with EmptyTagName, the error of
    the piece before it. *)
Lemma malformed_piece_behind_nameless :
  Split "=x; foo" ";"%char = ["=x"; " foo"]%string
  /\ TrimSpace " foo" = "foo"%string
  /\ Index "foo" "="%char = -1
  /\ parseDKIMParams "=x; foo" = Err EmptyTagName
  /\ parseDKIMParams "=x; foo" <> Err (MalformedTag "foo").
Proof. repeat split. discriminate. Qed.

(** The other way round: an empty tag name behind a piece without [=]. *)
Example nameless_piece_behind_malformed :
  parseDKIMParams "foo; =x" = Err (MalformedTag "foo").
Proof. reflexivity. Qed.

(** C9: the lexer splits the text on [;], skips the pieces that are
    empty once trimmed, cuts every other piece at its first [=] and trims
    the two halves. It fails exactly when some piece holds no [=] or has an
    empty key, with the error of the first such piece: MalformedTag when
    that piece holds no [=], EmptyTagName when its key is empty. Otherwise
    it returns the map of the tags in which, for every key, the value of the
    last piece with that key stays. *)
Theorem lexer_first_error_last_wins (s : string) :
  let pieces := Split s ";"%char in
  (forall t, parseDKIMParams s = Err (MalformedTag t) <->
             exists piece, first_offender pieces piece
                           /\ classify piece = Malformed t)
  /\ (parseDKIMParams s = Err EmptyTagName <->
      exists piece, first_offender pieces piece /\ classify piece = Nameless)
  /\ ((exists params, parseDKIMParams s = Ok params) <->
      Forall well_formed pieces)
  /\ (forall params, parseDKIMParams s = Ok params ->
        (forall k v before after,
            tags pieces = before ++ (k, v) :: after -> k ∉ after.*1 ->
            params !! k = Some v)
        /\ (forall k, k ∉ (tags pieces).*1 -> params !! k = None))
  /\ (forall e, parseDKIMParams s = Err e ->
        (exists t, e = MalformedTag t) \/ e = EmptyTagName)
  /\ parseDKIMParams "p=AAA; p=BBB" = Ok {[ "p"%string := "BBB"%string ]}.
Proof.
  cbv zeta. unfold parseDKIMParams.
  set (pieces := Split s ";"%char).
  destruct (offender_or_well_formed pieces) as [Hwf|(x & Hx)].
  - (* every piece is well formed *)
    pose proof (loop_well_formed pieces ∅ Hwf) as Hok.
    assert (Hnone : forall y, ~ first_offender pieces y).
    { intros y Hy. pose proof (loop_offender pieces y ∅ Hy) as He.
      rewrite Hok in He. destruct (classify y); discriminate. }
    rewrite Hok.
    split; [intros t; split;
            [discriminate|intros (y & Hy & _); destruct (Hnone y Hy)]|].
    split; [split; [discriminate|intros (y & Hy & _); destruct (Hnone y Hy)]|].
    split; [split; [intros _; exact Hwf|intros _; eexists; reflexivity]|].
    split; [|split; [intros e; discriminate|reflexivity]].
    intros params [= <-]. split.
    + intros k v before after Ht Hk. rewrite Ht. apply insert_all_last, Hk.
    + intros k Hk. rewrite insert_all_other by assumption. apply lookup_empty.
  - (* x is the first piece at fault *)
    pose proof (loop_offender pieces x ∅ Hx) as Herr.
    assert (Huniq : forall y, first_offender pieces y -> classify y = classify x).
    { intros y Hy. pose proof (loop_offender pieces y ∅ Hy) as Hey.
      rewrite Herr in Hey.
      destruct Hx as (_ & _ & _ & _ & Hbx), Hy as (_ & _ & _ & _ & Hby).
      unfold well_formed in Hbx, Hby.
      destruct (classify x), (classify y); try tauto; congruence. }
    assert (Hbad : ~ well_formed x) by (destruct Hx as (_ & _ & _ & _ & H); exact H).
    unfold well_formed in Hbad.
    rewrite Herr.
    split; [intros t; split|].
    { intros He. exists x. split; [exact Hx|].
      destruct (classify x); try tauto; congruence. }
    { intros (y & Hy & Hc). rewrite <- (Huniq y Hy), Hc. reflexivity. }
    split; [split|].
    { intros He. exists x. split; [exact Hx|].
      destruct (classify x); try tauto; congruence. }
    { intros (y & Hy & Hc). rewrite <- (Huniq y Hy), Hc. reflexivity. }
    split; [split|].
    { intros (params & He). destruct (classify x); discriminate. }
    { intros Hwf. exfalso. destruct Hx as (before & after & Hp & _ & Hb).
      rewrite Hp in Hwf. apply Forall_app in Hwf. destruct Hwf as [_ Hwf].
      inversion Hwf; subst. unfold well_formed in *. tauto. }
    split; [intros params He; destruct (classify x); discriminate|].
    split; [|reflexivity].
    intros e He. destruct (classify x); try tauto; injection He as <-; eauto.
Qed.

End LexerProps.

(** ** The key validator *)

Module DKIMProps.
Import GoStrings Crypto DKIM Spec Samples GoStringsProps LexerProps.

(** [parseTagList] keeps the trimmed parts that are not empty, in order. *)
Lemma parseTagList_spec (v : string) :
  parseTagList v =
  List.filter (fun p => negb (String.eqb p ""))
              (List.map TrimSpace (Split v ":"%char)).
Proof.
  unfold parseTagList.
  enough (H : forall l acc,
             fold_left
               (fun result p =>
                  if negb (String.eqb (TrimSpace p) "")
                  then result ++ [TrimSpace p] else result) l acc =
             acc ++ List.filter (fun p => negb (String.eqb p ""))
                                (List.map TrimSpace l))
    by (rewrite H; reflexivity).
  induction l as [|x l IH]; intros acc; simpl.
  - rewrite app_nil_r. reflexivity.
  - rewrite IH. destruct (negb (String.eqb (TrimSpace x) "")); [|reflexivity].
    rewrite <- app_assoc. reflexivity.
Qed.

(** The optional tags fill the four fields they name and leave the rest. *)
Lemma parseOptionalTags_spec (params : gmap string string) (rec : DKIMRecord) :
  HashAlgorithms rec = [] -> Services rec = [] -> Flags rec = [] ->
  Notes rec = ""%string ->
  parseOptionalTags params rec =
  keyRecord params (KeyType rec) (PublicKey rec) (IsRevoked rec).
Proof.
  intros Hh Hs Ht Hn. destruct rec as [kt pk h sv fl nt rv]. simpl in *. subst.
  unfold parseOptionalTags, keyRecord, tagList, tagText.
  destruct (params !! "h"%string), (params !! "s"%string),
    (params !! "t"%string), (params !! "n"%string);
    rewrite <- ?parseTagList_spec; reflexivity.
Qed.

(** The size the check compares is the bit length rounded up to a whole
    number of bytes. *)
Lemma BitLen_nonneg (n : Z) : 0 <= BitLen n.
Proof.
  unfold BitLen. destruct (n =? 0); [lia|].
  pose proof (Z.log2_nonneg (Z.abs n)). lia.
Qed.

Lemma keyBits_BitLen (k : rsa_PublicKey) :
  keyBits k < 1024 <-> BitLen (rsa_N k) <= 1016.
Proof.
  unfold keyBits, Size. pose proof (BitLen_nonneg (rsa_N k)) as H.
  rewrite Z.quot_div_nonneg by lia.
  pose proof (Z.div_mod (BitLen (rsa_N k) + 7) 8 ltac:(lia)) as Hd.
  pose proof (Z.mod_pos_bound (BitLen (rsa_N k) + 7) 8 ltac:(lia)) as Hm.
  lia.
Qed.

Section Decoders.

Variable pkix : list byte -> option crypto_PublicKey.
Variable pkcs1 : list byte -> option rsa_PublicKey.

Lemma parseRSAKeyMaterial_valid (b : list byte) (k : rsa_PublicKey) :
  decodesAsRSA pkix pkcs1 b k <->
  parseRSAKeyMaterial pkix pkcs1 b = Some (RSAKey k).
Proof.
  unfold decodesAsRSA, parseRSAKeyMaterial.
  destruct (pkix b) as [pub|]; [|destruct (pkcs1 b) as [k'|]].
  - split; [intros [H|[H _]]; congruence|]. intros H. left. exact H.
  - split; [intros [H|[_ H]]; congruence|].
    intros [= ->]. right. split; reflexivity.
  - split; [intros [H|[_ H]]; discriminate|discriminate].
Qed.

(** A successful parse went through the lexer, the version check and the
    look-up of p. *)
Lemma ParseDKIM_Ok_inv (s : string) (rec : DKIMRecord) :
  ParseDKIM pkix pkcs1 s = Ok rec ->
  exists params p,
    parseDKIMParams s = Ok params /\ versionOK params
    /\ params !! "p"%string = Some p.
Proof.
  unfold ParseDKIM.
  destruct (parseDKIMParams s) as [params|e]; [|discriminate]. simpl.
  intros H. exists params.
  assert (Hv : versionOK params).
  { unfold versionOK. destruct (params !! "v"%string) as [v|]; [|left; reflexivity].
    destruct (String.eqb v "DKIM1") eqn:E; [|discriminate].
    apply String.eqb_eq in E. subst v. right; reflexivity. }
  destruct (params !! "p"%string) as [p|] eqn:Hp.
  - exists p. split; [reflexivity|]. split; [exact Hv|reflexivity].
  - exfalso. destruct (params !! "v"%string) as [v|]; simpl in H;
      [destruct (negb (String.eqb v "DKIM1"))|]; discriminate.
Qed.

(** Past the lexer, the version check and the look-up of p: the record of
    a revoked key, or the key branch followed by the optional tags. *)
Lemma ParseDKIM_steps (s : string) (params : gmap string string) (p : string) :
  parseDKIMParams s = Ok params -> versionOK params ->
  params !! "p"%string = Some p ->
  ParseDKIM pkix pkcs1 s =
  if String.eqb p ""
  then Ok (keyRecord params "rsa" "" true)
  else match parsePublicKey pkix pkcs1 params p initialRecord with
       | Ok rec => Ok (parseOptionalTags params rec)
       | Err e => Err e
       end.
Proof.
  intros Hlex Hv Hp. unfold ParseDKIM. rewrite Hlex. simpl.
  assert (Hcheck : match params !! "v"%string with
                   | Some v => if negb (String.eqb v "DKIM1")
                               then Err UnsupportedVersion else Ok tt
                   | None => Ok tt
                   end = Ok tt)
    by (destruct Hv as [-> | ->]; reflexivity).
  rewrite Hcheck, Hp. simpl.
  destruct (String.eqb p ""); [|reflexivity].
  simpl. rewrite parseOptionalTags_spec by reflexivity. reflexivity.
Qed.

(** The outcome for a key that is not revoked and decodes as base64, by the
    k tag. *)
Lemma ParseDKIM_key (s : string) (params : gmap string string) (p : string)
    (b : list byte) :
  parseDKIMParams s = Ok params -> versionOK params ->
  params !! "p"%string = Some p -> p <> ""%string ->
  Base64.DecodeString (ReplaceAll p " " "") = Some b ->
  ParseDKIM pkix pkcs1 s =
  let kt := keyTypeTag params in
  let text := ReplaceAll p " " "" in
  if String.eqb kt "rsa" || String.eqb kt "" then
    match parseRSAKeyMaterial pkix pkcs1 b with
    | None => Err InvalidKeyEncoding
    | Some (OtherKey _) => Err KeyAlgorithmMismatch
    | Some (RSAKey k) =>
        if keyBits k <? 1024 then Err (KeyTooShort (keyBits k))
        else Ok (keyRecord params "rsa" text false)
    end
  else if String.eqb kt "ed25519" then
    if negb (Z.of_nat (length b) =? 32)
    then Err (InvalidKeySize (Z.of_nat (length b)))
    else Ok (keyRecord params "ed25519" text false)
  else Err (UnsupportedKeyType kt).
Proof.
  intros Hlex Hv Hp Hne Hb.
  rewrite (ParseDKIM_steps s params p Hlex Hv Hp).
  apply String.eqb_neq in Hne. rewrite Hne.
  unfold parsePublicKey, keyTypeTag. rewrite Hb. cbv zeta.
  destruct (params !! "k"%string) as [k|]; cbn [KeyType set_KeyType set_PublicKey initialRecord].
  - destruct (String.eqb k "rsa" || String.eqb k "") eqn:Ersa.
    + destruct (parseRSAKeyMaterial pkix pkcs1 b) as [[key|alg]|]; try reflexivity.
      fold (keyBits key). destruct (keyBits key <? 1024); [reflexivity|].
      rewrite parseOptionalTags_spec by reflexivity. reflexivity.
    + destruct (String.eqb k "ed25519") eqn:Eed; [|reflexivity].
      apply String.eqb_eq in Eed. subst k.
      unfold ed25519_PublicKeySize.
      destruct (negb (Z.of_nat (length b) =? 32)); [reflexivity|].
      rewrite parseOptionalTags_spec by reflexivity. reflexivity.
  - cbn [orb String.eqb Ascii.eqb Bool.eqb andb].
    destruct (parseRSAKeyMaterial pkix pkcs1 b) as [[key|alg]|]; try reflexivity.
    fold (keyBits key). destruct (keyBits key <? 1024); [reflexivity|].
    rewrite parseOptionalTags_spec by reflexivity. reflexivity.
Qed.

Lemma selectsRSA_keyType (params : gmap string string) :
  selectsRSA params <->
  String.eqb (keyTypeTag params) "rsa" || String.eqb (keyTypeTag params) "" = true.
Proof.
  unfold selectsRSA, keyTypeTag. rewrite orb_true_iff, !String.eqb_eq.
  destruct (params !! "k"%string) as [k|].
  - split; [intros [H|[H|H]]; try discriminate; injection H as ->; auto|].
    intros [-> | ->]; auto.
  - split; auto.
Qed.

(** C4 (amended): when the lexed tag map holds the p tag with an empty
    value and the v tag, if there is one, is DKIM1, the parse succeeds with
    isRevoked true and an empty publicKey; nothing of the key validation is
    run (the result depends neither on the decoders nor on the k tag), and
    the h, s, t and n tags are parsed into the result. *)
Theorem revoked_record (s : string) (params : gmap string string) :
  parseDKIMParams s = Ok params -> versionOK params ->
  params !! "p"%string = Some ""%string ->
  ParseDKIM pkix pkcs1 s =
  Ok {| KeyType := "rsa"; PublicKey := "";
        HashAlgorithms := tagList params "h"; Services := tagList params "s";
        Flags := tagList params "t"; Notes := tagText params "n";
        IsRevoked := true |}.
Proof.
  intros Hlex Hv Hp. rewrite (ParseDKIM_steps s params "" Hlex Hv Hp).
  reflexivity.
Qed.

(** The size check as the source computes it: for a p tag that is not
    empty and decodes to a structurally valid RSA key, with the key type
    rsa, the parse fails with KeyTooShort exactly when the size in bytes
    times eight is below 1024, and succeeds with key type rsa otherwise.
    That size is the bit length rounded up to a multiple of eight, so it is
    below 1024 exactly for bit lengths up to 1016. *)
Theorem rsa_key_size_floor (s : string) (params : gmap string string)
    (p : string) (b : list byte) (k : rsa_PublicKey) :
  parseDKIMParams s = Ok params -> versionOK params ->
  params !! "p"%string = Some p -> p <> ""%string ->
  Base64.DecodeString (ReplaceAll p " " "") = Some b ->
  selectsRSA params ->
  decodesAsRSA pkix pkcs1 b k ->
  (ParseDKIM pkix pkcs1 s = Err (KeyTooShort (keyBits k)) <-> keyBits k < 1024)
  /\ (forall n, ParseDKIM pkix pkcs1 s = Err (KeyTooShort n) -> n = keyBits k)
  /\ (1024 <= keyBits k ->
      ParseDKIM pkix pkcs1 s =
      Ok (keyRecord params "rsa" (ReplaceAll p " " "") false))
  /\ (keyBits k < 1024 <-> BitLen (rsa_N k) <= 1016).
Proof.
  intros Hlex Hv Hp Hne Hb Hk Hrsa.
  rewrite (ParseDKIM_key s params p b Hlex Hv Hp Hne Hb). cbv zeta.
  apply selectsRSA_keyType in Hk. rewrite Hk.
  apply parseRSAKeyMaterial_valid in Hrsa. rewrite Hrsa.
  destruct (keyBits k <? 1024) eqn:E.
  - apply Z.ltb_lt in E. split; [tauto|]. split; [congruence|].
    split; [lia|apply keyBits_BitLen].
  - apply Z.ltb_ge in E. split; [split; [discriminate|lia]|].
    split; [discriminate|]. split; [reflexivity|apply keyBits_BitLen].
Qed.

(** C7: for a p tag that is not empty and decodes as base64, with the key
    type rsa, the decoded bytes are read as a PKIX structure first and as a
    PKCS1 structure when that fails; the parse fails with
    InvalidKeyEncoding exactly when both fail, with KeyAlgorithmMismatch
    exactly when the PKIX structure holds a key that is no RSA key, and
    goes on to the size check with the RSA key otherwise. *)
Theorem rsa_decoding_order (s : string) (params : gmap string string)
    (p : string) (b : list byte) :
  parseDKIMParams s = Ok params -> versionOK params ->
  params !! "p"%string = Some p -> p <> ""%string ->
  Base64.DecodeString (ReplaceAll p " " "") = Some b ->
  selectsRSA params ->
  (forall pub, pkix b = Some pub ->
               parseRSAKeyMaterial pkix pkcs1 b = Some pub)
  /\ (pkix b = None ->
      parseRSAKeyMaterial pkix pkcs1 b = option_map RSAKey (pkcs1 b))
  /\ (ParseDKIM pkix pkcs1 s = Err InvalidKeyEncoding <->
      pkix b = None /\ pkcs1 b = None)
  /\ (ParseDKIM pkix pkcs1 s = Err KeyAlgorithmMismatch <->
      exists algorithm, pkix b = Some (OtherKey algorithm))
  /\ (forall k, decodesAsRSA pkix pkcs1 b k ->
        ParseDKIM pkix pkcs1 s =
        if keyBits k <? 1024 then Err (KeyTooShort (keyBits k))
        else Ok (keyRecord params "rsa" (ReplaceAll p " " "") false)).
Proof.
  intros Hlex Hv Hp Hne Hb Hk.
  rewrite (ParseDKIM_key s params p b Hlex Hv Hp Hne Hb). cbv zeta.
  apply selectsRSA_keyType in Hk. rewrite Hk.
  split; [intros pub H; unfold parseRSAKeyMaterial; rewrite H; reflexivity|].
  split; [intros H; unfold parseRSAKeyMaterial; rewrite H;
          destruct (pkcs1 b); reflexivity|].
  split; [|split].
  - unfold parseRSAKeyMaterial.
    destruct (pkix b) as [[key|alg]|]; [| |destruct (pkcs1 b) as [key|]].
    + destruct (keyBits key <? 1024); split; (discriminate || intros [H _]; discriminate).
    + split; [discriminate|intros [H _]; discriminate].
    + destruct (keyBits key <? 1024); split; (discriminate || intros [_ H]; discriminate).
    + split; [intros _; split; reflexivity|reflexivity].
  - unfold parseRSAKeyMaterial.
    destruct (pkix b) as [[key|alg]|]; [| |destruct (pkcs1 b) as [key|]].
    + destruct (keyBits key <? 1024); split;
        (discriminate || intros [a H]; discriminate).
    + split; [intros _; exists alg; reflexivity|reflexivity].
    + destruct (keyBits key <? 1024); split;
        (discriminate || intros [a H]; discriminate).
    + split; [discriminate|intros [a H]; discriminate].
  - intros k Hrsa. apply parseRSAKeyMaterial_valid in Hrsa. rewrite Hrsa.
    reflexivity.
Qed.

(** C8: for a p tag that is not empty and decodes as base64, with the key
    type ed25519, the parse succeeds exactly when the decoded bytes are 32,
    and fails with InvalidKeySize otherwise. *)
Theorem ed25519_key_size (s : string) (params : gmap string string)
    (p : string) (b : list byte) :
  parseDKIMParams s = Ok params -> versionOK params ->
  params !! "p"%string = Some p -> p <> ""%string ->
  Base64.DecodeString (ReplaceAll p " " "") = Some b ->
  params !! "k"%string = Some "ed25519"%string ->
  (length b = 32%nat ->
   ParseDKIM pkix pkcs1 s =
   Ok (keyRecord params "ed25519" (ReplaceAll p " " "") false))
  /\ (length b <> 32%nat ->
      ParseDKIM pkix pkcs1 s = Err (InvalidKeySize (Z.of_nat (length b))))
  /\ ((exists rec, ParseDKIM pkix pkcs1 s = Ok rec) <-> length b = 32%nat).
Proof.
  intros Hlex Hv Hp Hne Hb Hk.
  rewrite (ParseDKIM_key s params p b Hlex Hv Hp Hne Hb). cbv zeta.
  unfold keyTypeTag. rewrite Hk.
  cbn [orb String.eqb Ascii.eqb Bool.eqb andb].
  destruct (Z.of_nat (length b) =? 32) eqn:E; simpl.
  - apply Z.eqb_eq in E. split; [reflexivity|]. split; [lia|].
    split; [lia|]. intros _. eexists. reflexivity.
  - apply Z.eqb_neq in E. split; [lia|]. split; [reflexivity|].
    split; [intros [rec H]; discriminate|lia].
Qed.

(** C5 (amended): for a record the lexer accepts, whose version check
    passes and whose p tag is not empty and decodes as base64, the key type
    is taken from the k tag, rsa when the tag is absent or empty; the parse
    fails with UnsupportedKeyType exactly when the k tag is present with a
    value other than rsa, ed25519 and the empty string. *)
Theorem key_type_selection (s : string) (params : gmap string string)
    (p : string) (b : list byte) :
  parseDKIMParams s = Ok params -> versionOK params ->
  params !! "p"%string = Some p -> p <> ""%string ->
  Base64.DecodeString (ReplaceAll p " " "") = Some b ->
  (forall rec, ParseDKIM pkix pkcs1 s = Ok rec ->
     KeyType rec = (if String.eqb (keyTypeTag params) ""
                    then "rsa"%string else keyTypeTag params)
     /\ (KeyType rec = "rsa"%string \/ KeyType rec = "ed25519"%string))
  /\ (forall k, ParseDKIM pkix pkcs1 s = Err (UnsupportedKeyType k) <->
        params !! "k"%string = Some k /\ k <> "rsa"%string
        /\ k <> "ed25519"%string /\ k <> ""%string).
Proof.
  intros Hlex Hv Hp Hne Hb.
  rewrite (ParseDKIM_key s params p b Hlex Hv Hp Hne Hb). cbv zeta.
  unfold keyTypeTag.
  destruct (params !! "k"%string) as [k|].
  - destruct (String.eqb k "rsa") eqn:E1;
      [apply String.eqb_eq in E1; subst k|apply String.eqb_neq in E1].
    { cbn [orb]. split.
      - intros rec.
        destruct (parseRSAKeyMaterial pkix pkcs1 b) as [[key|alg]|];
          try discriminate.
        destruct (keyBits key <? 1024); [discriminate|].
        intros [= <-]. split; [reflexivity|left; reflexivity].
      - intros k. split.
        + destruct (parseRSAKeyMaterial pkix pkcs1 b) as [[key|alg]|];
            try discriminate.
          destruct (keyBits key <? 1024); discriminate.
        + intros ([= <-] & H & _). congruence. }
    destruct (String.eqb k "") eqn:E2;
      [apply String.eqb_eq in E2; subst k|apply String.eqb_neq in E2].
    { cbn [orb]. split.
      - intros rec.
        destruct (parseRSAKeyMaterial pkix pkcs1 b) as [[key|alg]|];
          try discriminate.
        destruct (keyBits key <? 1024); [discriminate|].
        intros [= <-]. split; [reflexivity|left; reflexivity].
      - intros k. split.
        + destruct (parseRSAKeyMaterial pkix pkcs1 b) as [[key|alg]|];
            try discriminate.
          destruct (keyBits key <? 1024); discriminate.
        + intros ([= <-] & _ & _ & H). congruence. }
    cbn [orb].
    destruct (String.eqb k "ed25519") eqn:E3;
      [apply String.eqb_eq in E3; subst k|apply String.eqb_neq in E3].
    { split.
      - intros rec. destruct (negb (Z.of_nat (length b) =? 32)); [discriminate|].
        intros [= <-]. split; [reflexivity|right; reflexivity].
      - intros k. split.
        + destruct (negb (Z.of_nat (length b) =? 32)); discriminate.
        + intros ([= <-] & _ & H & _). congruence. }
    split; [intros rec; discriminate|].
    intros k'. split.
    + intros [= <-]. tauto.
    + intros ([= <-] & _). reflexivity.
  - cbn [orb String.eqb Ascii.eqb Bool.eqb andb]. split.
    + intros rec.
      destruct (parseRSAKeyMaterial pkix pkcs1 b) as [[key|alg]|];
        try discriminate.
      destruct (keyBits key <? 1024); [discriminate|].
      intros [= <-]. split; [reflexivity|left; reflexivity].
    + intros k. split; [|intros (H & _); discriminate].
      destruct (parseRSAKeyMaterial pkix pkcs1 b) as [[key|alg]|];
        try discriminate.
      destruct (keyBits key <? 1024); discriminate.
Qed.

(** What the parser does with the text of the key: it removes the space
    characters, reports exactly the failure of the decoder on the rest as
    InvalidBase64, and returns the rest as the public key. *)
Lemma base64_step (s : string) (params : gmap string string) (p : string) :
  parseDKIMParams s = Ok params -> versionOK params ->
  params !! "p"%string = Some p -> p <> ""%string ->
  (ParseDKIM pkix pkcs1 s = Err InvalidBase64 <->
   Base64.DecodeString (ReplaceAll p " " "") = None)
  /\ (forall rec, ParseDKIM pkix pkcs1 s = Ok rec ->
        PublicKey rec = ReplaceAll p " " "").
Proof.
  intros Hlex Hv Hp Hne.
  destruct (Base64.DecodeString (ReplaceAll p " " "")) as [b|] eqn:Hb.
  - rewrite (ParseDKIM_key s params p b Hlex Hv Hp Hne Hb). cbv zeta.
    destruct (String.eqb (keyTypeTag params) "rsa"
              || String.eqb (keyTypeTag params) "").
    + destruct (parseRSAKeyMaterial pkix pkcs1 b) as [[key|alg]|].
      * destruct (keyBits key <? 1024).
        -- split; [split; discriminate|discriminate].
        -- split; [split; discriminate|]. intros rec [= <-]. reflexivity.
      * split; [split; discriminate|discriminate].
      * split; [split; discriminate|discriminate].
    + destruct (String.eqb (keyTypeTag params) "ed25519").
      * destruct (negb (Z.of_nat (length b) =? 32)).
        -- split; [split; discriminate|discriminate].
        -- split; [split; discriminate|]. intros rec [= <-]. reflexivity.
      * split; [split; discriminate|discriminate].
  - rewrite (ParseDKIM_steps s params p Hlex Hv Hp).
    apply String.eqb_neq in Hne. rewrite Hne.
    unfold parsePublicKey. rewrite Hb.
    split; [split; reflexivity|discriminate].
Qed.

(** C2: a record the parser returns is either revoked with an empty
    public key, or not revoked with a public key that is valid standard
    base64 and decodes to a structurally valid key of the record's key
    type: an RSA key for rsa, 32 bytes for ed25519. *)
Theorem dkim_record_invariant (s : string) (rec : DKIMRecord) :
  ParseDKIM pkix pkcs1 s = Ok rec -> DKIMInvariant pkix pkcs1 rec.
Proof.
  intros Hok. unfold DKIMInvariant.
  destruct (ParseDKIM_Ok_inv s rec Hok) as (params & p & Hlex & Hv & Hp).
  destruct (String.eqb p "") eqn:Ep.
  - apply String.eqb_eq in Ep. subst p.
    rewrite (ParseDKIM_steps s params "" Hlex Hv Hp) in Hok. simpl in Hok.
    injection Hok as <-. simpl. split; [reflexivity|discriminate].
  - apply String.eqb_neq in Ep.
    destruct (Base64.DecodeString (ReplaceAll p " " "")) as [b|] eqn:Hb.
    + rewrite (ParseDKIM_key s params p b Hlex Hv Hp Ep Hb) in Hok.
      cbv zeta in Hok.
      destruct (String.eqb (keyTypeTag params) "rsa"
                || String.eqb (keyTypeTag params) "").
      * destruct (parseRSAKeyMaterial pkix pkcs1 b) as [[key|alg]|] eqn:Hkey;
          try discriminate.
        destruct (keyBits key <? 1024); [discriminate|].
        injection Hok as <-. simpl. split; [discriminate|].
        intros _. exists b. split; [exact Hb|]. left. split; [reflexivity|].
        exists key. apply parseRSAKeyMaterial_valid. exact Hkey.
      * destruct (String.eqb (keyTypeTag params) "ed25519"); [|discriminate].
        destruct (Z.of_nat (length b) =? 32) eqn:E; [|discriminate].
        apply Z.eqb_eq in E. simpl in Hok.
        injection Hok as <-. simpl. split; [discriminate|].
        intros _. exists b. split; [exact Hb|]. right. split; [reflexivity|lia].
    + exfalso.
      destruct (base64_step s params p Hlex Hv Hp Ep) as [[_ H] _].
      rewrite (H Hb) in Hok. discriminate.
Qed.

End Decoders.

(** *** The test suite of the parser, replayed *)

Example test_valid_RSA_key :
  parse (recordOf "DKIM1" "rsa" testKey) =
  Ok {| KeyType := "rsa"; PublicKey := testKey; HashAlgorithms := [];
        Services := []; Flags := []; Notes := ""; IsRevoked := false |}.
Proof. vm_compute. reflexivity. Qed.

Example test_revoked_key :
  parse "v=DKIM1; p=" =
  Ok {| KeyType := "rsa"; PublicKey := ""; HashAlgorithms := [];
        Services := []; Flags := []; Notes := ""; IsRevoked := true |}.
Proof. vm_compute. reflexivity. Qed.

Example test_missing_p_tag : parse "v=DKIM1; k=rsa" = Err MissingPublicKey.
Proof. vm_compute. reflexivity. Qed.

Example test_invalid_base64 :
  parse "v=DKIM1; p=not-valid-base64!!!" = Err InvalidBase64.
Proof. vm_compute. reflexivity. Qed.

Example test_wrong_version :
  parse (String.append "v=DKIM2; p=" testKey) = Err UnsupportedVersion.
Proof. vm_compute. reflexivity. Qed.

(** *** The theorems at concrete records *)

Ltac run := vm_compute; reflexivity.

Lemma revoked_record_witness :
  parse revokedRecord =
  Ok {| KeyType := "rsa"; PublicKey := ""; HashAlgorithms := [];
        Services := []; Flags := []; Notes := ""; IsRevoked := true |}.
Proof.
  apply (revoked_record DER.ParsePKIXPublicKey DER.ParsePKCS1PublicKey
           revokedRecord revokedParams).
  - run.
  - right. run.
  - run.
Defined.

Lemma dkim_record_invariant_witness :
  DKIMInvariant DER.ParsePKIXPublicKey DER.ParsePKCS1PublicKey
    {| KeyType := "rsa"; PublicKey := testKey; HashAlgorithms := [];
       Services := []; Flags := []; Notes := ""; IsRevoked := false |}.
Proof.
  apply (dkim_record_invariant DER.ParsePKIXPublicKey DER.ParsePKCS1PublicKey
           (recordOf "DKIM1" "rsa" testKey)).
  run.
Defined.

Lemma rsa_key_size_floor_witness :
  parse (recordOf "DKIM1" "rsa" testKey) =
    Ok (keyRecord (paramsOf "DKIM1" "rsa" testKey) "rsa" testKey false)
  /\ parse (recordOf "DKIM1" "rsa" shortKey) = Err (KeyTooShort 512).
Proof.
  split.
  - apply (rsa_key_size_floor DER.ParsePKIXPublicKey DER.ParsePKCS1PublicKey
             (recordOf "DKIM1" "rsa" testKey) (paramsOf "DKIM1" "rsa" testKey)
             testKey (bytesOf testKey) (rsaKeyOf testKey)).
    + run.
    + right. run.
    + run.
    + discriminate.
    + run.
    + right. left. run.
    + left. run.
    + vm_compute. discriminate.
  - apply (rsa_key_size_floor DER.ParsePKIXPublicKey DER.ParsePKCS1PublicKey
             (recordOf "DKIM1" "rsa" shortKey) (paramsOf "DKIM1" "rsa" shortKey)
             shortKey (bytesOf shortKey) (rsaKeyOf shortKey)).
    + run.
    + right. run.
    + run.
    + discriminate.
    + run.
    + right. left. run.
    + right. split; run.
    + run.
Defined.

Lemma rsa_decoding_order_witness :
  parse (recordOf "DKIM1" "rsa" "AAAA") = Err InvalidKeyEncoding
  /\ parse (recordOf "DKIM1" "rsa" edKeyPKIX) = Err KeyAlgorithmMismatch.
Proof.
  split.
  - apply (rsa_decoding_order DER.ParsePKIXPublicKey DER.ParsePKCS1PublicKey
             (recordOf "DKIM1" "rsa" "AAAA") (paramsOf "DKIM1" "rsa" "AAAA")
             "AAAA" (bytesOf "AAAA")).
    + run.
    + right. run.
    + run.
    + discriminate.
    + run.
    + right. left. run.
    + split; run.
  - apply (rsa_decoding_order DER.ParsePKIXPublicKey DER.ParsePKCS1PublicKey
             (recordOf "DKIM1" "rsa" edKeyPKIX)
             (paramsOf "DKIM1" "rsa" edKeyPKIX) edKeyPKIX (bytesOf edKeyPKIX)).
    + run.
    + right. run.
    + run.
    + discriminate.
    + run.
    + right. left. run.
    + exists "ed25519"%string. run.
Defined.

Lemma ed25519_key_size_witness :
  parse (recordOf "DKIM1" "ed25519" edKey) =
    Ok (keyRecord (paramsOf "DKIM1" "ed25519" edKey) "ed25519" edKey false)
  /\ parse (recordOf "DKIM1" "ed25519" testKey) = Err (InvalidKeySize 162).
Proof.
  split.
  - apply (ed25519_key_size DER.ParsePKIXPublicKey DER.ParsePKCS1PublicKey
             (recordOf "DKIM1" "ed25519" edKey)
             (paramsOf "DKIM1" "ed25519" edKey) edKey (bytesOf edKey)).
    + run.
    + right. run.
    + run.
    + discriminate.
    + run.
    + run.
    + run.
  - apply (ed25519_key_size DER.ParsePKIXPublicKey DER.ParsePKCS1PublicKey
             (recordOf "DKIM1" "ed25519" testKey)
             (paramsOf "DKIM1" "ed25519" testKey) testKey (bytesOf testKey)).
    + run.
    + right. run.
    + run.
    + discriminate.
    + run.
    + run.
    + vm_compute. discriminate.
Defined.

Lemma key_type_selection_witness :
  parse (recordOf "DKIM1" "dsa" "AAAA") = Err (UnsupportedKeyType "dsa").
Proof.
  apply (key_type_selection DER.ParsePKIXPublicKey DER.ParsePKCS1PublicKey
           (recordOf "DKIM1" "dsa" "AAAA") (paramsOf "DKIM1" "dsa" "AAAA")
           "AAAA" (bytesOf "AAAA")).
  - run.
  - right. run.
  - run.
  - discriminate.
  - run.
  - split; [run|]. repeat split; discriminate.
Defined.

(** *** Where claims fail as they stand *)

(** C4 as it stands: the tag map holds an empty p, and the parse fails on
    the version. *)
Lemma revoked_with_wrong_version :
  (exists params, parseDKIMParams "v=DKIM2; p=" = Ok params
                  /\ params !! "p"%string = Some ""%string)
  /\ parse "v=DKIM2; p=" = Err UnsupportedVersion.
Proof.
  split; [|run].
  exists (<["p"%string := ""%string]> (<["v"%string := "DKIM2"%string]> ∅)).
  split; run.
Qed.

(** C5 as it stands: the k tag is present with a value that is neither rsa
    nor ed25519, and the parse succeeds, with the key type rsa: the k tag of
    a revoked record is not looked at. *)
Lemma unsupported_key_type_of_revoked_record :
  (exists params, parseDKIMParams "v=DKIM1; k=foo; p=" = Ok params
                  /\ params !! "k"%string = Some "foo"%string)
  /\ parse "v=DKIM1; k=foo; p=" =
     Ok {| KeyType := "rsa"; PublicKey := ""; HashAlgorithms := [];
           Services := []; Flags := []; Notes := ""; IsRevoked := true |}.
Proof.
  split; [|run].
  exists (<["p"%string := ""%string]>
            (<["k"%string := "foo"%string]> (<["v"%string := "DKIM1"%string]> ∅))).
  split; run.
Qed.

(** An empty k tag selects rsa. *)
Example empty_key_type :
  parse (recordOf "DKIM1" "" testKey) =
  Ok {| KeyType := "rsa"; PublicKey := testKey; HashAlgorithms := [];
        Services := []; Flags := []; Notes := ""; IsRevoked := false |}.
Proof. run. Qed.

(** The optional tags of a revoked record. *)
Example revoked_with_tags :
  parse revokedTagged =
  Ok {| KeyType := "rsa"; PublicKey := "";
        HashAlgorithms := ["sha1"; "sha256"; "x"]; Services := [];
        Flags := ["y"; "s"]; Notes := "rotated out"; IsRevoked := true |}.
Proof. run. Qed.

(** C10: the parser removes the space character only. An Ed25519 key
    folded with a horizontal tab is white space and base64 data only, and
    decodes to 32 bytes once the white space is stripped; the parser fails on
    it with InvalidBase64, whatever the decoders, while it accepts the same
    key unfolded or folded with a space. *)
Theorem tab_folded_key_rejected
    (pkix : list byte -> option crypto_PublicKey)
    (pkcs1 : list byte -> option rsa_PublicKey) :
  stripWhitespace edKeyTab = edKey
  /\ option_map (@length byte) (Base64.DecodeString (stripWhitespace edKeyTab))
     = Some 32%nat
  /\ ReplaceAll edKeyTab " " "" = edKeyTab
  /\ ParseDKIM pkix pkcs1 (recordOf "DKIM1" "ed25519" edKeyTab)
     = Err InvalidBase64
  /\ ParseDKIM pkix pkcs1 (recordOf "DKIM1" "ed25519" edKey)
     = Ok {| KeyType := "ed25519"; PublicKey := edKey; HashAlgorithms := [];
             Services := []; Flags := []; Notes := ""; IsRevoked := false |}
  /\ ParseDKIM pkix pkcs1 (recordOf "DKIM1" "ed25519" edKeySpace)
     = Ok {| KeyType := "ed25519"; PublicKey := edKey; HashAlgorithms := [];
             Services := []; Flags := []; Notes := ""; IsRevoked := false |}.
Proof. repeat split; run. Qed.

(** A key folded with a line feed is accepted, the decoder skipping line
    feeds, and the public key returned keeps the line feed. *)
Example newline_folded_key :
  parse (recordOf "DKIM1" "ed25519" edKeyNewline) =
  Ok {| KeyType := "ed25519"; PublicKey := edKeyNewline; HashAlgorithms := [];
        Services := []; Flags := []; Notes := ""; IsRevoked := false |}
  /\ edKeyNewline <> stripWhitespace edKeyNewline.
Proof. split; [run|]. vm_compute. discriminate. Qed.

End DKIMProps.

(** ** White space trimming *)

Module TrimProps.
Import GoStrings Spec Trim.

Lemma occurs_In (c : ascii) (s : string) :
  occurs c s <-> In c (list_ascii_of_string s).
Proof.
  induction s as [|a r IH]; simpl; [tauto|]. rewrite IH. tauto.
Qed.

Lemma occurs_append (c : ascii) (a b : string) :
  occurs c (String.append a b) <-> occurs c a \/ occurs c b.
Proof.
  induction a as [|x a IH]; simpl; [tauto|]. rewrite IH. tauto.
Qed.

Section Generic.

Variable s2 : ascii -> ascii -> bool.
Variable s3 : ascii -> ascii -> ascii -> bool.
Variable f : list ascii -> list ascii.

(** [f] removes the space sequence in front and goes on. *)
Hypothesis step : forall l,
  f l = match lead s2 s3 l with
        | O => l
        | S n => f (skipn (S n) l)
        end.

Lemma lead_le (l : list ascii) : (lead s2 s3 l <= length l)%nat.
Proof.
  destruct l as [|a [|b [|c r]]]; simpl;
    repeat match goal with |- context [if ?t then _ else _] => destruct t end;
    lia.
Qed.

Lemma lead_head (a : ascii) (r : list ascii) :
  lead s2 s3 (a :: r) = O -> asciiSpace a = false.
Proof. simpl. destruct (asciiSpace a); [discriminate|reflexivity]. Qed.

Lemma lead_prefix (m post : list ascii) :
  lead s2 s3 (m ++ post) = O -> lead s2 s3 m = O.
Proof.
  destruct m as [|a [|b [|c r]]]; simpl; try reflexivity.
  - destruct (asciiSpace a); [discriminate|reflexivity].
  - destruct (asciiSpace a); [discriminate|].
    destruct (s2 a b); [discriminate|reflexivity].
  - destruct (asciiSpace a); [discriminate|].
    destruct (s2 a b); [discriminate|]. destruct (s3 a b c); tauto.
Qed.

Lemma trimmed_suffix (l : list ascii) : exists pre, l = pre ++ f l.
Proof.
  induction l as [l IH] using (induction_ltof1 _ (@length ascii)).
  unfold ltof in IH. rewrite step.
  destruct (lead s2 s3 l) as [|n] eqn:E; [exists []; reflexivity|].
  pose proof (lead_le l) as Hle. rewrite E in Hle.
  destruct (IH (skipn (S n) l)) as [pre Hpre].
  { rewrite length_skipn. lia. }
  exists (firstn (S n) l ++ pre).
  rewrite <- app_assoc, <- Hpre, firstn_skipn. reflexivity.
Qed.

Lemma trimmed_lead (l : list ascii) : lead s2 s3 (f l) = O.
Proof.
  induction l as [l IH] using (induction_ltof1 _ (@length ascii)).
  unfold ltof in IH. rewrite step.
  destruct (lead s2 s3 l) as [|n] eqn:E; [exact E|].
  pose proof (lead_le l) as Hle. rewrite E in Hle.
  apply IH. rewrite length_skipn. lia.
Qed.

Lemma trimmed_fixed (l : list ascii) : lead s2 s3 l = O -> f l = l.
Proof. intros H. rewrite step, H. reflexivity. Qed.

End Generic.

Lemma trimLeft_step (l : list ascii) :
  trimLeft l = match leadLeft l with
               | O => l
               | S n => trimLeft (skipn (S n) l)
               end.
Proof.
  unfold leadLeft, lead. destruct l as [|a r]; [reflexivity|].
  change (trimLeft (a :: r)) with
    (if asciiSpace a then trimLeft r
     else match r with
          | b :: r2 =>
              if space2 a b then trimLeft r2
              else match r2 with
                   | c :: r3 => if space3 a b c then trimLeft r3 else a :: r
                   | [] => a :: r
                   end
          | [] => a :: r
          end).
  destruct (asciiSpace a); [reflexivity|].
  destruct r as [|b r2]; [reflexivity|].
  destruct (space2 a b); [reflexivity|].
  destruct r2 as [|c r3]; [reflexivity|].
  destruct (space3 a b c); reflexivity.
Qed.

Lemma trimRightRev_step (l : list ascii) :
  trimRightRev l = match leadRight l with
                   | O => l
                   | S n => trimRightRev (skipn (S n) l)
                   end.
Proof.
  unfold leadRight, lead. destruct l as [|a r]; [reflexivity|].
  change (trimRightRev (a :: r)) with
    (if asciiSpace a then trimRightRev r
     else match r with
          | b :: r2 =>
              if space2 b a then trimRightRev r2
              else match r2 with
                   | c :: r3 => if space3 c b a then trimRightRev r3 else a :: r
                   | [] => a :: r
                   end
          | [] => a :: r
          end).
  destruct (asciiSpace a); [reflexivity|].
  destruct r as [|b r2]; [reflexivity|].
  destruct (space2 b a); [reflexivity|].
  destruct r2 as [|c r3]; [reflexivity|].
  destruct (space3 c b a); reflexivity.
Qed.

(** The bytes [TrimSpace] keeps: the text is what it removes in front, what
    it keeps and what it removes at the end; what it keeps starts and ends
    with no space. *)
Lemma TrimSpace_bytes (s : string) :
  exists pre m post,
    list_ascii_of_string s = pre ++ m ++ post
    /\ list_ascii_of_string (TrimSpace s) = m
    /\ leadLeft m = O /\ leadRight (rev m) = O.
Proof.
  unfold TrimSpace. set (l := list_ascii_of_string s).
  destruct (trimmed_suffix _ _ _ trimLeft_step l) as [pre Hpre].
  pose proof (trimmed_lead _ _ _ trimLeft_step l) as Hlead.
  set (l1 := trimLeft l) in *.
  destruct (trimmed_suffix _ _ _ trimRightRev_step (rev l1)) as [post Hpost].
  pose proof (trimmed_lead _ _ _ trimRightRev_step (rev l1)) as Hlead'.
  set (r := trimRightRev (rev l1)) in *.
  assert (Hl1 : l1 = rev r ++ rev post).
  { rewrite <- rev_app_distr, <- Hpost, rev_involutive. reflexivity. }
  exists pre, (rev r), (rev post).
  split; [rewrite Hpre, Hl1; reflexivity|].
  split; [apply list_ascii_of_string_of_list_ascii|].
  split.
  - apply (lead_prefix _ _ (rev r) (rev post)). unfold leadLeft in Hlead.
    rewrite <- Hl1. exact Hlead.
  - rewrite rev_involutive. exact Hlead'.
Qed.

Lemma TrimSpace_occurs (c : ascii) (s : string) :
  occurs c (TrimSpace s) -> occurs c s.
Proof.
  rewrite !occurs_In.
  destruct (TrimSpace_bytes s) as (pre & m & post & Hs & Hm & _).
  rewrite Hs, Hm, !in_app_iff. tauto.
Qed.

Lemma TrimSpace_head (s : string) (a : ascii) (r : string) :
  TrimSpace s = String a r -> asciiSpace a = false.
Proof.
  intros H. destruct (TrimSpace_bytes s) as (pre & m & post & _ & Hm & Hl & _).
  rewrite H in Hm. simpl in Hm. subst m.
  exact (lead_head _ _ _ _ Hl).
Qed.

Lemma TrimSpace_fixed (s : string) :
  leadLeft (list_ascii_of_string s) = O ->
  leadRight (rev (list_ascii_of_string s)) = O ->
  TrimSpace s = s.
Proof.
  intros Hl Hr. unfold TrimSpace.
  rewrite (trimmed_fixed _ _ _ trimLeft_step _ Hl).
  rewrite (trimmed_fixed _ _ _ trimRightRev_step _ Hr).
  rewrite rev_involutive. apply string_of_list_ascii_of_string.
Qed.

Lemma TrimSpace_idempotent (s : string) :
  TrimSpace (TrimSpace s) = TrimSpace s.
Proof.
  destruct (TrimSpace_bytes s) as (pre & m & post & _ & Hm & Hl & Hr).
  apply TrimSpace_fixed; rewrite Hm; assumption.
Qed.

End TrimProps.

(** ** More on the tag-value lexer *)

Module LexerCover.
Import GoStrings DKIM Spec Samples Cover GoStringsProps LexerProps TrimProps.

Lemma Split_joined (s1 s2 : string) (sep : ascii) :
  Split (joined s1 sep s2) sep = Split s1 sep ++ Split s2 sep.
Proof.
  unfold joined. induction s1 as [|a r IH]; simpl.
  - rewrite Ascii.eqb_refl. reflexivity.
  - destruct (Ascii.eqb a sep); rewrite IH; [reflexivity|].
    pose proof (Split_nonempty r sep) as Hne.
    destruct (Split r sep); [contradiction|reflexivity].
Qed.

Lemma Split_without (s : string) (sep : ascii) :
  ~ occurs sep s -> Split s sep = [s].
Proof.
  induction s as [|a r IH]; simpl; [reflexivity|]. intros H.
  destruct (Ascii.eqb a sep) eqn:E; [apply Ascii.eqb_eq in E; tauto|].
  rewrite IH by tauto. reflexivity.
Qed.

(** The loop over two runs of pieces is the loop over the second on the
    map of the first. *)
Lemma loop_concat (l1 l2 : list string) (m : gmap string string) :
  parseDKIMParams_loop (l1 ++ l2) m =
  match parseDKIMParams_loop l1 m with
  | Ok m' => parseDKIMParams_loop l2 m'
  | Err e => Err e
  end.
Proof.
  revert m. induction l1 as [|x l1 IH]; intros m; [reflexivity|].
  rewrite <- app_comm_cons, !loop_cons.
  destruct (classify x); try reflexivity; apply IH.
Qed.

Lemma insert_all_union (l : list (string * string)) (m : gmap string string) :
  insert_all l m = insert_all l ∅ ∪ m.
Proof.
  revert m. induction l as [|[k v] l IH]; intros m; unfold insert_all in *;
    cbn [fold_left].
  - rewrite (left_id_L ∅ (∪)). reflexivity.
  - rewrite (IH (<[(k, v).1 := (k, v).2]> m)), (IH (<[(k, v).1 := (k, v).2]> ∅)).
    simpl. rewrite <- (assoc_L (∪)). f_equal.
    rewrite insert_union_singleton_l, insert_empty. reflexivity.
Qed.

(** Starting from a map [m] gives the map from the empty map, over [m]. *)
Lemma loop_base (pieces : list string) (m : gmap string string) :
  parseDKIMParams_loop pieces m =
  match parseDKIMParams_loop pieces ∅ with
  | Ok m' => Ok (m' ∪ m)
  | Err e => Err e
  end.
Proof.
  destruct (offender_or_well_formed pieces) as [Hwf|(x & Hx)].
  - rewrite !loop_well_formed by assumption. rewrite insert_all_union.
    reflexivity.
  - rewrite !(loop_offender pieces x) by assumption.
    destruct (classify x); reflexivity.
Qed.

Lemma lexer_joined (s1 s2 : string) :
  parseDKIMParams (joined s1 ";" s2) =
  match parseDKIMParams s1 with
  | Err e => Err e
  | Ok m1 =>
      match parseDKIMParams s2 with
      | Err e => Err e
      | Ok m2 => Ok (m2 ∪ m1)
      end
  end.
Proof.
  unfold parseDKIMParams. rewrite Split_joined, loop_concat.
  destruct (parseDKIMParams_loop (Split s1 ";") ∅) as [m1|e]; [|reflexivity].
  apply loop_base.
Qed.

(** A successful run is the tags of the pieces inserted in order. *)
Lemma lexer_Ok_tags (s : string) (params : gmap string string) :
  parseDKIMParams s = Ok params ->
  Forall well_formed (Split s ";")
  /\ params = insert_all (tags (Split s ";")) ∅.
Proof.
  unfold parseDKIMParams. intros H.
  destruct (offender_or_well_formed (Split s ";")) as [Hwf|(x & Hx)].
  - rewrite loop_well_formed in H by assumption. injection H as <-.
    split; [assumption|reflexivity].
  - rewrite (loop_offender _ x) in H by assumption.
    destruct (classify x); discriminate.
Qed.

Lemma insert_all_lookup (l : list (string * string)) (m : gmap string string)
    (k v : string) :
  insert_all l m !! k = Some v -> (k, v) ∈ l \/ m !! k = Some v.
Proof.
  revert m. induction l as [|[k' v'] l IH]; intros m; unfold insert_all in *;
    cbn [fold_left]; [tauto|].
  intros H. apply IH in H. destruct H as [H|H].
  - left. right. exact H.
  - simpl in H. destruct (decide (k' = k)) as [->|Hne].
    + rewrite lookup_insert_eq in H. injection H as ->. left. left.
    + rewrite lookup_insert_ne in H by assumption. right. exact H.
Qed.

Lemma tags_elem (pieces : list string) (k v : string) :
  (k, v) ∈ tags pieces ->
  exists piece, piece ∈ pieces /\ classify piece = Tag k v.
Proof.
  induction pieces as [|x rest IH]; simpl; [intros H; inversion H|].
  destruct (classify x) eqn:E; try (intros H; destruct (IH H) as (p & Hp & Hc);
    exists p; split; [right; exact Hp|exact Hc]).
  intros H. apply elem_of_cons in H. destruct H as [[= -> ->]|H].
  - exists x. split; [left|exact E].
  - destruct (IH H) as (p & Hp & Hc). exists p. split; [right; exact Hp|exact Hc].
Qed.

Lemma piece_without_separator (s piece : string) (sep : ascii) :
  piece ∈ Split s sep -> ~ occurs sep (TrimSpace piece).
Proof.
  intros Hin Hocc. apply TrimSpace_occurs in Hocc.
  destruct (Split_join s sep) as [_ Hall].
  rewrite Forall_forall in Hall. exact (Hall piece Hin Hocc).
Qed.

Lemma lexer_Err_kind (s : string) (e : error) :
  parseDKIMParams s = Err e -> (exists t, e = MalformedTag t) \/ e = EmptyTagName.
Proof.
  unfold parseDKIMParams. intros H.
  destruct (offender_or_well_formed (Split s ";")) as [Hwf|(x & Hx)].
  - rewrite loop_well_formed in H by assumption. discriminate.
  - rewrite (loop_offender _ x) in H by assumption.
    destruct (classify x); injection H as <-; eauto.
Qed.

Lemma lexer_blank (s : string) :
  Forall (fun piece => TrimSpace piece = ""%string) (Split s ";") ->
  parseDKIMParams s = Ok ∅.
Proof.
  intros Hall. unfold parseDKIMParams.
  induction Hall as [|x rest Hx _ IH]; [reflexivity|].
  rewrite loop_cons. unfold classify. rewrite Hx. exact IH.
Qed.

(** X1: lexing two texts joined by a semicolon is lexing one after the
    other: the first error stops the run, and of two maps the one of the
    second text is laid over the one of the first, so that its tags win. *)
Theorem lexer_concatenation (s1 s2 : string) :
  parseDKIMParams (joined s1 ";" s2) =
  match parseDKIMParams s1 with
  | Err e => Err e
  | Ok m1 =>
      match parseDKIMParams s2 with
      | Err e => Err e
      | Ok m2 => Ok (m2 ∪ m1)
      end
  end.
Proof. apply lexer_joined. Qed.

(** X2: a semicolon at the end or in front of a record changes nothing,
    and a record without any tag (the empty text included) lexes to the
    empty map. *)
Theorem lexer_separators_ignored (s : string) :
  parseDKIMParams (String.append s ";") = parseDKIMParams s
  /\ parseDKIMParams (String ";" s) = parseDKIMParams s
  /\ parseDKIMParams "" = Ok ∅
  /\ (Forall (fun piece => TrimSpace piece = ""%string) (Split s ";") ->
      parseDKIMParams s = Ok ∅).
Proof.
  split; [|split; [|split]].
  - change (String.append s ";") with (joined s ";" ""). rewrite lexer_joined.
    destruct (parseDKIMParams s) as [m|e]; [|reflexivity].
    change (parseDKIMParams "") with (@Ok (gmap string string) ∅).
    cbv beta iota. rewrite (left_id_L ∅ (∪)). reflexivity.
  - change (String ";" s) with (joined "" ";" s). rewrite lexer_joined.
    change (parseDKIMParams "") with (@Ok (gmap string string) ∅).
    cbv beta iota. destruct (parseDKIMParams s) as [m|e]; [|reflexivity].
    rewrite (right_id_L ∅ (∪)). reflexivity.
  - reflexivity.
  - apply lexer_blank.
Qed.

(** X3: every tag of the map the lexer returns has a name that is not
    empty, holds no [=] and no [;] and has no white space around it, and a
    value that holds no [;] and has no white space around it. *)
Theorem lexer_tag_shape (s : string) (params : gmap string string)
    (k v : string) :
  parseDKIMParams s = Ok params -> params !! k = Some v ->
  k <> ""%string /\ TrimSpace k = k /\ TrimSpace v = v
  /\ ~ occurs "="%char k /\ ~ occurs ";"%char k /\ ~ occurs ";"%char v.
Proof.
  intros Hok Hk. destruct (lexer_Ok_tags s params Hok) as [_ ->].
  apply insert_all_lookup in Hk.
  destruct Hk as [Hk|Hk]; [|rewrite lookup_empty in Hk; discriminate].
  destruct (tags_elem _ _ _ Hk) as (piece & Hin & Hc).
  pose proof (classify_meaning piece) as Hm. rewrite Hc in Hm.
  destruct Hm as (k0 & v0 & Ht & Hk0 & -> & Hne & ->).
  pose proof (piece_without_separator s piece ";" Hin) as Hsep.
  rewrite Ht, occurs_append in Hsep. simpl in Hsep.
  split; [exact Hne|]. split; [apply TrimSpace_idempotent|].
  split; [apply TrimSpace_idempotent|].
  split; [intros H; apply TrimSpace_occurs in H; tauto|].
  split; intros H; apply TrimSpace_occurs in H; tauto.
Qed.

Lemma lexer_tag_shape_witness :
  "p"%string <> ""%string /\ TrimSpace "p" = "p"%string
  /\ TrimSpace "BBB" = "BBB"%string
  /\ ~ occurs "="%char "p" /\ ~ occurs ";"%char "p" /\ ~ occurs ";"%char "BBB".
Proof.
  apply (lexer_tag_shape " p = AAA ;p=BBB "
           (<["p"%string := "BBB"%string]> ∅)); vm_compute; reflexivity.
Defined.

(** X4: the text a MalformedTag error carries is the faulty piece of the
    record without the white space around it: it is not empty and holds
    neither [=] nor [;]. *)
Theorem lexer_error_payload (s t : string) :
  parseDKIMParams s = Err (MalformedTag t) ->
  (exists piece, piece ∈ Split s ";" /\ t = TrimSpace piece)
  /\ t <> ""%string /\ TrimSpace t = t
  /\ ~ occurs "="%char t /\ ~ occurs ";"%char t.
Proof.
  unfold parseDKIMParams. intros H.
  destruct (offender_or_well_formed (Split s ";")) as [Hwf|(x & Hx)].
  { rewrite loop_well_formed in H by assumption. discriminate. }
  rewrite (loop_offender _ x) in H by assumption.
  pose proof (classify_meaning x) as Hm.
  destruct (classify x) as [|t'| |]; try discriminate.
  injection H as ->. destruct Hm as (-> & Hne & Heq).
  assert (Hin : x ∈ Split s ";").
  { destruct Hx as (before & after & -> & _). apply elem_of_app. right. left. }
  split; [exists x; split; [exact Hin|reflexivity]|].
  split; [exact Hne|]. split; [apply TrimSpace_idempotent|].
  split; [exact Heq|]. exact (piece_without_separator s x ";" Hin).
Qed.

Lemma lexer_error_payload_witness :
  (exists piece, piece ∈ Split "v=DKIM1;  rsa key ; p=" ";"
                 /\ "rsa key"%string = TrimSpace piece)
  /\ "rsa key"%string <> ""%string /\ TrimSpace "rsa key" = "rsa key"%string
  /\ ~ occurs "="%char "rsa key" /\ ~ occurs ";"%char "rsa key".
Proof.
  apply (lexer_error_payload "v=DKIM1;  rsa key ; p=" "rsa key").
  vm_compute. reflexivity.
Defined.

End LexerCover.

(** ** The colon-separated lists *)

Module TagListCover.
Import GoStrings DKIM Spec Cover GoStringsProps TrimProps LexerCover DKIMProps.

(** X5: the values [parseTagList] returns are not empty, have no white
    space around them and hold no colon, and they are at most as many as
    the parts between the colons. *)
Theorem tag_list_elements (s : string) :
  Forall (fun x => x <> ""%string /\ TrimSpace x = x /\ ~ occurs ":"%char x)
         (parseTagList s)
  /\ (length (parseTagList s) <= length (Split s ":"))%nat.
Proof.
  rewrite parseTagList_spec. split.
  - rewrite Forall_forall. intros x Hx.
    apply list_elem_of_In, filter_In in Hx. destruct Hx as [Hx Hne].
    apply in_map_iff in Hx. destruct Hx as (piece & <- & Hin).
    apply list_elem_of_In in Hin.
    split; [apply String.eqb_neq, negb_true_iff, Hne|].
    split; [apply TrimSpace_idempotent|].
    exact (piece_without_separator s piece ":" Hin).
  - etransitivity; [apply List.filter_length_le|]. rewrite length_map. lia.
Qed.

(** X6: the list of two texts joined by a colon is the list of the first
    followed by the list of the second; the empty text gives no value, and
    a text without a colon gives itself trimmed, or nothing when it is
    blank. *)
Theorem tag_list_concatenation (a b : string) :
  parseTagList (joined a ":" b) = parseTagList a ++ parseTagList b
  /\ parseTagList "" = []
  /\ (~ occurs ":"%char a ->
      parseTagList a =
      if String.eqb (TrimSpace a) "" then [] else [TrimSpace a]).
Proof.
  split; [|split].
  - rewrite !parseTagList_spec, Split_joined, map_app.
    apply List.filter_app.
  - reflexivity.
  - intros H. rewrite parseTagList_spec, Split_without by assumption. simpl.
    destruct (String.eqb (TrimSpace a) ""); reflexivity.
Qed.

End TagListCover.

(** ** More on the key validator *)

Module ParserCover.
Import GoStrings Crypto DKIM Spec Samples Cover.
Import GoStringsProps LexerProps TrimProps LexerCover DKIMProps.

Lemma versionOKb_spec (params : gmap string string) :
  versionOKb params = true <-> versionOK params.
Proof.
  unfold versionOKb, versionOK.
  destruct (params !! "v"%string) as [v|]; [|tauto].
  rewrite String.eqb_eq. split; [intros ->; tauto|].
  intros [H|H]; congruence.
Qed.

Lemma ReplaceAll_no_old (s : string) (old : ascii) :
  ~ occurs old (ReplaceAll s old "").
Proof.
  induction s as [|a r IH]; simpl; [tauto|].
  destruct (Ascii.eqb a old) eqn:E; [exact IH|].
  apply Ascii.eqb_neq in E. simpl. tauto.
Qed.

Lemma tag_shape (s : string) (params : gmap string string) (k v : string) :
  parseDKIMParams s = Ok params -> params !! k = Some v ->
  exists k0 v0, k = TrimSpace k0 /\ v = TrimSpace v0 /\ k <> ""%string.
Proof.
  intros Hok Hk. destruct (lexer_Ok_tags s params Hok) as [_ ->].
  apply insert_all_lookup in Hk.
  destruct Hk as [Hk|Hk]; [|rewrite lookup_empty in Hk; discriminate].
  destruct (tags_elem _ _ _ Hk) as (piece & Hin & Hc).
  pose proof (classify_meaning piece) as Hm. rewrite Hc in Hm.
  destruct Hm as (k0 & v0 & _ & _ & -> & Hne & ->).
  exists k0, v0. auto.
Qed.

(** A text with no white space in front keeps something when its spaces
    are removed. *)
Lemma stripped_nonempty (v0 : string) :
  TrimSpace v0 <> ""%string -> ReplaceAll (TrimSpace v0) " " "" <> ""%string.
Proof.
  intros Hne. destruct (TrimSpace v0) as [|a r] eqn:E; [contradiction|].
  apply TrimSpace_head in E. simpl.
  destruct (Ascii.eqb a " ") eqn:Ea; [|discriminate].
  apply Ascii.eqb_eq in Ea. subst a. discriminate.
Qed.

Section Decoders.

Variable pkix : list byte -> option crypto_PublicKey.
Variable pkcs1 : list byte -> option rsa_PublicKey.

(** Past the lexer the parser is a function of the tag map. *)
Lemma ParseDKIM_outcome (s : string) (params : gmap string string) :
  parseDKIMParams s = Ok params ->
  ParseDKIM pkix pkcs1 s = outcome pkix pkcs1 params.
Proof.
  intros Hlex. unfold outcome.
  destruct (versionOKb params) eqn:Hv; simpl.
  - apply versionOKb_spec in Hv.
    destruct (params !! "p"%string) as [p|] eqn:Hp.
    + destruct (String.eqb p "") eqn:Ep.
      * rewrite (ParseDKIM_steps pkix pkcs1 s params p Hlex Hv Hp), Ep.
        reflexivity.
      * apply String.eqb_neq in Ep.
        destruct (Base64.DecodeString (ReplaceAll p " " "")) as [b|] eqn:Hb.
        -- exact (ParseDKIM_key pkix pkcs1 s params p b Hlex Hv Hp Ep Hb).
        -- apply (base64_step pkix pkcs1 s params p Hlex Hv Hp Ep). exact Hb.
    + unfold ParseDKIM. rewrite Hlex. simpl.
      destruct Hv as [Hv|Hv]; rewrite Hv, Hp; reflexivity.
  - unfold ParseDKIM, versionOKb in *. rewrite Hlex. simpl.
    destruct (params !! "v"%string) as [v|]; [|discriminate].
    rewrite Hv. reflexivity.
Qed.

Lemma keyOutcome_Err (params : gmap string string) (p : string)
    (b : list byte) (e : error) :
  keyOutcome pkix pkcs1 params p b = Err e -> keyError e.
Proof.
  unfold keyOutcome. cbv zeta.
  destruct (String.eqb (keyTypeTag params) "rsa"
            || String.eqb (keyTypeTag params) "").
  - destruct (parseRSAKeyMaterial pkix pkcs1 b) as [[k|alg]|].
    + destruct (keyBits k <? 1024); [|discriminate]. intros [= <-]. exact I.
    + intros [= <-]. exact I.
    + intros [= <-]. exact I.
  - destruct (String.eqb (keyTypeTag params) "ed25519").
    + destruct (negb (Z.of_nat (length b) =? 32)); [|discriminate].
      intros [= <-]. exact I.
    + intros [= <-]. exact I.
Qed.

Lemma keyTypeTag_ed25519 (params : gmap string string) :
  String.eqb (keyTypeTag params) "rsa" || String.eqb (keyTypeTag params) "" = false ->
  (String.eqb (keyTypeTag params) "ed25519" = true <->
   params !! "k"%string = Some "ed25519"%string).
Proof.
  unfold keyTypeTag. destruct (params !! "k"%string) as [k|].
  - intros _. rewrite String.eqb_eq. split; congruence.
  - discriminate.
Qed.

Lemma keyOutcome_Ok (params : gmap string string) (p : string) (b : list byte) :
  (forall rec, keyOutcome pkix pkcs1 params p b = Ok rec ->
     validBytes pkix pkcs1 params b
     /\ exists kt, (kt = "rsa"%string \/ kt = "ed25519"%string)
                   /\ rec = keyRecord params kt (ReplaceAll p " " "") false)
  /\ (validBytes pkix pkcs1 params b ->
      exists rec, keyOutcome pkix pkcs1 params p b = Ok rec).
Proof.
  unfold keyOutcome, validBytes. cbv zeta.
  destruct (String.eqb (keyTypeTag params) "rsa"
            || String.eqb (keyTypeTag params) "") eqn:Ersa.
  - assert (Hsel : selectsRSA params) by (apply selectsRSA_keyType; exact Ersa).
    assert (Hned : params !! "k"%string <> Some "ed25519"%string).
    { destruct Hsel as [H|[H|H]]; rewrite H; discriminate. }
    destruct (parseRSAKeyMaterial pkix pkcs1 b) as [[k|alg]|] eqn:Hk.
    + apply parseRSAKeyMaterial_valid in Hk.
      destruct (keyBits k <? 1024) eqn:E.
      * apply Z.ltb_lt in E. split; [discriminate|].
        intros [(_ & k' & Hk' & Hbits)|[H _]]; [|contradiction].
        apply parseRSAKeyMaterial_valid in Hk, Hk'.
        rewrite Hk in Hk'. injection Hk' as <-. lia.
      * apply Z.ltb_ge in E. split; [|intros _; eexists; reflexivity].
        intros rec [= <-]. split; [|eexists; split; [left|]; reflexivity].
        left. split; [exact Hsel|]. exists k. split; [exact Hk|exact E].
    + split; [discriminate|].
      intros [(_ & k' & Hk' & _)|[H _]]; [|contradiction].
      apply parseRSAKeyMaterial_valid in Hk'. congruence.
    + split; [discriminate|].
      intros [(_ & k' & Hk' & _)|[H _]]; [|contradiction].
      apply parseRSAKeyMaterial_valid in Hk'. congruence.
  - assert (Hnsel : ~ selectsRSA params).
    { intros H. apply selectsRSA_keyType in H. congruence. }
    pose proof (keyTypeTag_ed25519 params Ersa) as Hed.
    destruct (String.eqb (keyTypeTag params) "ed25519").
    + destruct Hed as [Hed _]. specialize (Hed eq_refl).
      destruct (Z.of_nat (length b) =? 32) eqn:E; simpl.
      * apply Z.eqb_eq in E. split; [|intros _; eexists; reflexivity].
        intros rec [= <-]. split; [|eexists; split; [right|]; reflexivity].
        right. split; [exact Hed|lia].
      * apply Z.eqb_neq in E. split; [discriminate|].
        intros [[H _]|[_ H]]; [contradiction|lia].
    + split; [discriminate|].
      intros [[H _]|[H _]]; [contradiction|].
      destruct Hed as [_ Hed]. specialize (Hed H). discriminate.
Qed.

(** Two tag maps that agree on the tags the parser looks up have the same
    outcome. *)
Lemma outcome_known_tags (m1 m2 : gmap string string) :
  (forall t, t ∈ knownTags -> m1 !! t = m2 !! t) ->
  outcome pkix pkcs1 m1 = outcome pkix pkcs1 m2.
Proof.
  intros H.
  assert (Hv : m1 !! "v"%string = m2 !! "v"%string)
    by (apply H; unfold knownTags; rewrite !elem_of_cons; tauto).
  assert (Hp : m1 !! "p"%string = m2 !! "p"%string)
    by (apply H; unfold knownTags; rewrite !elem_of_cons; tauto).
  assert (Hk : m1 !! "k"%string = m2 !! "k"%string)
    by (apply H; unfold knownTags; rewrite !elem_of_cons; tauto).
  assert (Hh : m1 !! "h"%string = m2 !! "h"%string)
    by (apply H; unfold knownTags; rewrite !elem_of_cons; tauto).
  assert (Hs : m1 !! "s"%string = m2 !! "s"%string)
    by (apply H; unfold knownTags; rewrite !elem_of_cons; tauto).
  assert (Ht : m1 !! "t"%string = m2 !! "t"%string)
    by (apply H; unfold knownTags; rewrite !elem_of_cons; tauto).
  assert (Hn : m1 !! "n"%string = m2 !! "n"%string)
    by (apply H; unfold knownTags; rewrite !elem_of_cons; tauto).
  unfold outcome, keyOutcome, versionOKb, keyTypeTag, keyRecord, tagList, tagText.
  rewrite Hv, Hp, Hk, Hh, Hs, Ht, Hn. reflexivity.
Qed.

Lemma outcome_Err (params : gmap string string) (e : error) :
  outcome pkix pkcs1 params = Err e ->
  (e = UnsupportedVersion /\ versionOKb params = false)
  \/ (e = MissingPublicKey /\ versionOKb params = true
      /\ params !! "p"%string = None)
  \/ (e = InvalidBase64 /\ versionOKb params = true
      /\ exists p, params !! "p"%string = Some p /\ p <> ""%string
                   /\ Base64.DecodeString (ReplaceAll p " " "") = None)
  \/ keyError e.
Proof.
  unfold outcome. destruct (versionOKb params); simpl.
  - destruct (params !! "p"%string) as [p|].
    + destruct (String.eqb p "") eqn:Ep; [discriminate|].
      apply String.eqb_neq in Ep.
      destruct (Base64.DecodeString (ReplaceAll p " " "")) as [b|] eqn:Hb.
      * intros H. right. right. right. exact (keyOutcome_Err _ _ _ _ H).
      * intros [= <-]. right. right. left. split; [reflexivity|].
        split; [reflexivity|]. exists p. auto.
    + intros [= <-]. right. left. auto.
  - intros [= <-]. left. auto.
Qed.

(** X7: an error of the lexer is the error of the parser, and the parser
    fails with MalformedTag or EmptyTagName only when the lexer does. *)
Theorem lexer_errors_propagate (s : string) :
  (forall e, parseDKIMParams s = Err e -> ParseDKIM pkix pkcs1 s = Err e)
  /\ (forall t, ParseDKIM pkix pkcs1 s = Err (MalformedTag t) ->
                parseDKIMParams s = Err (MalformedTag t))
  /\ (ParseDKIM pkix pkcs1 s = Err EmptyTagName ->
      parseDKIMParams s = Err EmptyTagName).
Proof.
  destruct (parseDKIMParams s) as [params|e0] eqn:Hlex.
  - rewrite (ParseDKIM_outcome s params Hlex).
    split; [discriminate|]. split.
    + intros t H. apply outcome_Err in H.
      destruct H as [[H _]|[[H _]|[[H _]|H]]]; try discriminate; destruct H.
    + intros H. apply outcome_Err in H.
      destruct H as [[H _]|[[H _]|[[H _]|H]]]; try discriminate; destruct H.
  - unfold ParseDKIM. rewrite Hlex. simpl.
    split; [intros e [= <-]; reflexivity|].
    split; [intros t [= ->]; reflexivity|intros [= ->]; reflexivity].
Qed.

(** X8: the parser fails with UnsupportedVersion exactly when the lexer
    succeeds and the v tag is present with a value other than DKIM1,
    whatever the other tags are. *)
Theorem version_check (s : string) :
  ParseDKIM pkix pkcs1 s = Err UnsupportedVersion <->
  exists params v, parseDKIMParams s = Ok params
                   /\ params !! "v"%string = Some v /\ v <> "DKIM1"%string.
Proof.
  destruct (parseDKIMParams s) as [params|e0] eqn:Hlex.
  - rewrite (ParseDKIM_outcome s params Hlex). split.
    + intros H. apply outcome_Err in H.
      destruct H as [[_ H]|[[H _]|[[H _]|H]]]; try discriminate; [|destruct H].
      unfold versionOKb in H.
      destruct (params !! "v"%string) as [v|] eqn:Hv; [|discriminate].
      apply String.eqb_neq in H. exists params, v. auto.
    + intros (params' & v & [= <-] & Hv & Hne).
      unfold outcome, versionOKb. rewrite Hv.
      apply String.eqb_neq in Hne. rewrite Hne. reflexivity.
  - unfold ParseDKIM. rewrite Hlex. simpl. split; [intros [= ->]|].
    + destruct (lexer_Err_kind s _ Hlex) as [[t H]|H]; discriminate.
    + intros (params & v & H & _). discriminate.
Qed.

(** X9: the parser fails with MissingPublicKey exactly when the lexer
    succeeds, the version check passes and there is no p tag; so does a
    record without any tag, the empty record included. *)
Theorem missing_public_key (s : string) :
  (ParseDKIM pkix pkcs1 s = Err MissingPublicKey <->
   exists params, parseDKIMParams s = Ok params /\ versionOK params
                  /\ params !! "p"%string = None)
  /\ (Forall (fun piece => TrimSpace piece = ""%string) (Split s ";") ->
      ParseDKIM pkix pkcs1 s = Err MissingPublicKey).
Proof.
  split.
  - destruct (parseDKIMParams s) as [params|e0] eqn:Hlex.
    + rewrite (ParseDKIM_outcome s params Hlex). split.
      * intros H. apply outcome_Err in H.
        destruct H as [[H _]|[(_ & Hv & Hp)|[[H _]|H]]];
          try discriminate; [|destruct H].
        exists params. split; [reflexivity|].
        split; [apply versionOKb_spec, Hv|exact Hp].
      * intros (params' & [= <-] & Hv & Hp).
        apply versionOKb_spec in Hv. unfold outcome. rewrite Hv, Hp.
        reflexivity.
    + unfold ParseDKIM. rewrite Hlex. simpl. split; [intros [= ->]|].
      * destruct (lexer_Err_kind s _ Hlex) as [[t H]|H]; discriminate.
      * intros (params & H & _). discriminate.
  - intros Hall. rewrite (ParseDKIM_outcome s ∅ (lexer_blank s Hall)).
    reflexivity.
Qed.

(** X10: the parser accepts a record exactly when the lexer succeeds, the
    version check passes, and the p tag is present and either empty or a
    text that decodes as base64, once its spaces are removed, to a key that
    passes the checks of the type the k tag selects: a structurally valid
    RSA key of at least 1024 bits, or 32 bytes for ed25519. *)
Theorem acceptance (s : string) :
  (exists rec, ParseDKIM pkix pkcs1 s = Ok rec) <->
  exists params p,
    parseDKIMParams s = Ok params /\ versionOK params
    /\ params !! "p"%string = Some p
    /\ (p = ""%string \/ validKey pkix pkcs1 params p).
Proof.
  destruct (parseDKIMParams s) as [params|e0] eqn:Hlex.
  - rewrite (ParseDKIM_outcome s params Hlex). unfold outcome, validKey.
    destruct (versionOKb params) eqn:Hv; simpl.
    + apply versionOKb_spec in Hv.
      destruct (params !! "p"%string) as [p|] eqn:Hp.
      * destruct (String.eqb p "") eqn:Ep.
        { apply String.eqb_eq in Ep. subst p. split.
          - intros _. exists params, ""%string. auto.
          - intros _. eexists. reflexivity. }
        apply String.eqb_neq in Ep.
        destruct (Base64.DecodeString (ReplaceAll p " " "")) as [b|] eqn:Hb.
        -- destruct (keyOutcome_Ok params p b) as [Hfwd Hbwd]. split.
           ++ intros [rec Hrec]. exists params, p.
              split; [reflexivity|]. split; [exact Hv|]. split; [exact Hp|].
              right. exists b. split; [exact Hb|]. apply (Hfwd rec Hrec).
           ++ intros (params' & p' & [= <-] & _ & Hp' & [->|(b' & Hb' & Hval)]).
              { rewrite Hp in Hp'. injection Hp' as ->. contradiction. }
              rewrite Hp in Hp'. injection Hp' as <-.
              rewrite Hb in Hb'. injection Hb' as <-. exact (Hbwd Hval).
        -- split; [intros [rec H]; discriminate|].
           intros (params' & p' & [= <-] & _ & Hp' & [->|(b' & Hb' & _)]).
           { rewrite Hp in Hp'. injection Hp' as ->. contradiction. }
           rewrite Hp in Hp'. injection Hp' as <-. congruence.
      * split; [intros [rec H]; discriminate|].
        intros (params' & p' & [= <-] & _ & Hp' & _). congruence.
    + split; [intros [rec H]; discriminate|].
      intros (params' & p' & [= <-] & Hv' & _).
      apply versionOKb_spec in Hv'. congruence.
  - unfold ParseDKIM. rewrite Hlex. simpl.
    split; [intros [rec H]; discriminate|].
    intros (params & p & H & _). discriminate.
Qed.

(** The record of a successful parse, by the p tag. *)
Lemma ParseDKIM_Ok_record (s : string) (params : gmap string string)
    (rec : DKIMRecord) :
  parseDKIMParams s = Ok params -> ParseDKIM pkix pkcs1 s = Ok rec ->
  (params !! "p"%string = Some ""%string
   /\ rec = keyRecord params "rsa" "" true)
  \/ (exists p kt, params !! "p"%string = Some p /\ p <> ""%string
                   /\ ReplaceAll p " " "" <> ""%string
                   /\ (kt = "rsa"%string \/ kt = "ed25519"%string)
                   /\ rec = keyRecord params kt (ReplaceAll p " " "") false).
Proof.
  intros Hlex Hok. rewrite (ParseDKIM_outcome s params Hlex) in Hok.
  unfold outcome in Hok.
  destruct (versionOKb params); [|discriminate]. simpl in Hok.
  destruct (params !! "p"%string) as [p|] eqn:Hp; [|discriminate].
  destruct (String.eqb p "") eqn:Ep.
  - apply String.eqb_eq in Ep. subst p. injection Hok as <-. left. auto.
  - apply String.eqb_neq in Ep.
    destruct (Base64.DecodeString (ReplaceAll p " " "")) as [b|]; [|discriminate].
    destruct (keyOutcome_Ok params p b) as [Hfwd _].
    destruct (Hfwd rec Hok) as [_ (kt & Hkt & ->)].
    right. exists p, kt. split; [reflexivity|]. split; [exact Ep|].
    split; [|split; [exact Hkt|reflexivity]].
    destruct (tag_shape s params "p" p Hlex Hp) as (_ & v0 & _ & -> & _).
    apply stripped_nonempty. exact Ep.
Qed.

(** X11: in a record the parser returns, isRevoked is true exactly when
    the p tag is empty, the public key is empty exactly when the record is
    revoked, the public key holds no space character, and a revoked record
    has the key type rsa. *)
Theorem revocation (s : string) (params : gmap string string)
    (rec : DKIMRecord) :
  parseDKIMParams s = Ok params -> ParseDKIM pkix pkcs1 s = Ok rec ->
  (IsRevoked rec = true <-> params !! "p"%string = Some ""%string)
  /\ (PublicKey rec = ""%string <-> IsRevoked rec = true)
  /\ ~ occurs " "%char (PublicKey rec)
  /\ (IsRevoked rec = true -> KeyType rec = "rsa"%string).
Proof.
  intros Hlex Hok.
  destruct (ParseDKIM_Ok_record s params rec Hlex Hok)
    as [[Hp ->]|(p & kt & Hp & Hne & Hstrip & _ & ->)]; simpl.
  - split; [tauto|]. split; [tauto|]. split; [tauto|reflexivity].
  - split; [split; [discriminate|intros H; congruence]|].
    split; [split; [contradiction|discriminate]|].
    split; [apply ReplaceAll_no_old|discriminate].
Qed.

(** X12: in a record the parser returns, revoked or not, the hash
    algorithms, services and flags are the trimmed non-empty parts of the
    h, s and t tags, none when the tag is absent, and the notes are the n
    tag, empty when it is absent. *)
Theorem optional_tags (s : string) (params : gmap string string)
    (rec : DKIMRecord) :
  parseDKIMParams s = Ok params -> ParseDKIM pkix pkcs1 s = Ok rec ->
  HashAlgorithms rec = tagList params "h"
  /\ Services rec = tagList params "s"
  /\ Flags rec = tagList params "t"
  /\ Notes rec = tagText params "n".
Proof.
  intros Hlex Hok.
  destruct (ParseDKIM_Ok_record s params rec Hlex Hok)
    as [[_ ->]|(p & kt & _ & _ & _ & _ & ->)]; simpl; auto.
Qed.

(** X13: the parser looks at the tags v, p, k, h, s, t and n only: two
    records whose tag maps agree on these have the same result. *)
Theorem known_tags_only (s1 s2 : string) (m1 m2 : gmap string string) :
  parseDKIMParams s1 = Ok m1 -> parseDKIMParams s2 = Ok m2 ->
  (forall t, t ∈ knownTags -> m1 !! t = m2 !! t) ->
  ParseDKIM pkix pkcs1 s1 = ParseDKIM pkix pkcs1 s2.
Proof.
  intros H1 H2 H.
  rewrite (ParseDKIM_outcome s1 m1 H1), (ParseDKIM_outcome s2 m2 H2).
  apply outcome_known_tags, H.
Qed.

(** X14: the order of the tags does not matter: two texts with no tag in
    common give the same result joined either way round. *)
Theorem tag_order (s1 s2 : string) (m1 m2 : gmap string string) :
  parseDKIMParams s1 = Ok m1 -> parseDKIMParams s2 = Ok m2 ->
  m1 ##ₘ m2 ->
  ParseDKIM pkix pkcs1 (joined s1 ";" s2) = ParseDKIM pkix pkcs1 (joined s2 ";" s1).
Proof.
  intros H1 H2 Hdisj.
  assert (Ha : parseDKIMParams (joined s1 ";" s2) = Ok (m2 ∪ m1))
    by (rewrite lexer_joined, H1, H2; reflexivity).
  assert (Hb : parseDKIMParams (joined s2 ";" s1) = Ok (m1 ∪ m2))
    by (rewrite lexer_joined, H1, H2; reflexivity).
  rewrite (ParseDKIM_outcome _ _ Ha), (ParseDKIM_outcome _ _ Hb).
  rewrite (map_union_comm m1 m2 Hdisj). reflexivity.
Qed.

(** X15: the parser fails with InvalidBase64 exactly when the lexer
    succeeds, the version check passes, and the p tag is present, not empty
    and, with its space characters (and nothing else) removed, is refused by
    the base64 decoder. *)
Theorem base64_failure (s : string) :
  ParseDKIM pkix pkcs1 s = Err InvalidBase64 <->
  exists params p,
    parseDKIMParams s = Ok params /\ versionOK params
    /\ params !! "p"%string = Some p /\ p <> ""%string
    /\ Base64.DecodeString (ReplaceAll p " " "") = None.
Proof.
  destruct (parseDKIMParams s) as [params|e0] eqn:Hlex.
  - rewrite (ParseDKIM_outcome s params Hlex). split.
    + intros H. apply outcome_Err in H.
      destruct H as [[H _]|[[H _]|[(_ & Hv & p & Hp & Hne & Hb)|H]]];
        try discriminate; [|destruct H].
      exists params, p. split; [reflexivity|].
      split; [apply versionOKb_spec, Hv|auto].
    + intros (params' & p & [= <-] & Hv & Hp & Hne & Hb).
      apply versionOKb_spec in Hv. apply String.eqb_neq in Hne.
      unfold outcome. rewrite Hv, Hp, Hne, Hb. reflexivity.
  - unfold ParseDKIM. rewrite Hlex. simpl. split; [intros [= ->]|].
    + destruct (lexer_Err_kind s _ Hlex) as [[t H]|H]; discriminate.
    + intros (params & p & H & _). discriminate.
Qed.

Lemma keyBits_shape (k : rsa_PublicKey) : 0 <= keyBits k /\ keyBits k mod 8 = 0.
Proof.
  unfold keyBits, Size. pose proof (BitLen_nonneg (rsa_N k)) as H.
  rewrite Z.quot_div_nonneg by lia. split.
  - pose proof (Z.div_pos (BitLen (rsa_N k) + 7) 8 ltac:(lia) ltac:(lia)). lia.
  - apply Z.mod_mul. lia.
Qed.

Lemma outcome_payload (params : gmap string string) (e : error) :
  outcome pkix pkcs1 params = Err e ->
  match e with
  | KeyTooShort n => 0 <= n < 1024 /\ n mod 8 = 0
  | InvalidKeySize n => 0 <= n /\ n <> 32
  | UnsupportedKeyType k =>
      params !! "k"%string = Some k /\ k <> "rsa"%string
      /\ k <> "ed25519"%string /\ k <> ""%string
  | _ => True
  end.
Proof.
  unfold outcome. destruct (negb (versionOKb params)); [intros [= <-]; exact I|].
  destruct (params !! "p"%string) as [p|]; [|intros [= <-]; exact I].
  destruct (String.eqb p ""); [discriminate|].
  destruct (Base64.DecodeString (ReplaceAll p " " "")) as [b|];
    [|intros [= <-]; exact I].
  unfold keyOutcome, keyTypeTag. cbv zeta.
  destruct (params !! "k"%string) as [k|].
  - destruct (String.eqb k "rsa") eqn:E1; cbn [orb].
    + destruct (parseRSAKeyMaterial pkix pkcs1 b) as [[key|alg]|];
        try (intros [= <-]; exact I).
      destruct (keyBits key <? 1024) eqn:E; [|discriminate].
      apply Z.ltb_lt in E. intros [= <-].
      pose proof (keyBits_shape key). tauto.
    + destruct (String.eqb k "") eqn:E2.
      * destruct (parseRSAKeyMaterial pkix pkcs1 b) as [[key|alg]|];
          try (intros [= <-]; exact I).
        destruct (keyBits key <? 1024) eqn:E; [|discriminate].
        apply Z.ltb_lt in E. intros [= <-].
        pose proof (keyBits_shape key). tauto.
      * destruct (String.eqb k "ed25519") eqn:E3.
        -- destruct (Z.of_nat (length b) =? 32) eqn:E; [discriminate|].
           apply Z.eqb_neq in E. intros [= <-]. split; [lia|exact E].
        -- intros [= <-]. apply String.eqb_neq in E1, E2, E3. auto.
  - cbn [orb String.eqb Ascii.eqb Bool.eqb andb].
    destruct (parseRSAKeyMaterial pkix pkcs1 b) as [[key|alg]|];
      try (intros [= <-]; exact I).
    destruct (keyBits key <? 1024) eqn:E; [|discriminate].
    apply Z.ltb_lt in E. intros [= <-].
    pose proof (keyBits_shape key). tauto.
Qed.

(** X24: what the errors of the key checks carry: the size KeyTooShort
    reports is a whole number of bytes in bits, from 0 up to 1016; the
    length InvalidKeySize reports is not 32; the key type
    UnsupportedKeyType reports is the k tag, which is not rsa, not ed25519
    and not empty. *)
Theorem key_error_payloads (s : string) :
  (forall n, ParseDKIM pkix pkcs1 s = Err (KeyTooShort n) ->
             0 <= n <= 1016 /\ n mod 8 = 0)
  /\ (forall n, ParseDKIM pkix pkcs1 s = Err (InvalidKeySize n) ->
                0 <= n /\ n <> 32)
  /\ (forall k, ParseDKIM pkix pkcs1 s = Err (UnsupportedKeyType k) ->
                k <> "rsa"%string /\ k <> "ed25519"%string /\ k <> ""%string).
Proof.
  destruct (parseDKIMParams s) as [params|e0] eqn:Hlex.
  - rewrite (ParseDKIM_outcome s params Hlex).
    split; [|split].
    + intros n H. apply outcome_payload in H. destruct H as [[H0 H1] H8].
      split; [|exact H8].
      pose proof (Z.div_mod n 8 ltac:(lia)) as Hd. rewrite H8 in Hd. lia.
    + intros n H. exact (outcome_payload _ _ H).
    + intros k H. apply outcome_payload in H. tauto.
  - unfold ParseDKIM. rewrite Hlex. simpl.
    destruct (lexer_Err_kind s _ Hlex) as [[t ->]| ->];
      split; [|split| |split]; intros x H; discriminate.
Qed.

(** C3: the size check misses the moduli of 1017 to 1023 bits. For a p
    tag that is not empty and decodes to a structurally valid RSA key whose
    modulus has a bit length from 1017 to 1023, with the key type rsa, the
    size the source compares with 1024 is the size in bytes times eight,
    which is 1024: the parse succeeds and does not fail with KeyTooShort,
    although the modulus is shorter than 1024 bits. *)
Theorem modulus_below_1024_bits_accepted (s : string)
    (params : gmap string string) (p : string) (b : list byte)
    (k : rsa_PublicKey) :
  parseDKIMParams s = Ok params -> versionOK params ->
  params !! "p"%string = Some p -> p <> ""%string ->
  Base64.DecodeString (ReplaceAll p " " "") = Some b ->
  selectsRSA params ->
  decodesAsRSA pkix pkcs1 b k ->
  1017 <= BitLen (rsa_N k) <= 1023 ->
  BitLen (rsa_N k) < 1024
  /\ Size k * 8 = 1024
  /\ ParseDKIM pkix pkcs1 s =
     Ok (keyRecord params "rsa" (ReplaceAll p " " "") false)
  /\ (forall n, ParseDKIM pkix pkcs1 s <> Err (KeyTooShort n)).
Proof.
  intros Hlex Hv Hp Hne Hb Hk Hrsa Hbits.
  assert (Hsize : keyBits k = 1024).
  { unfold keyBits, Size. rewrite Z.quot_div_nonneg by lia.
    pose proof (Z.div_mod (BitLen (rsa_N k) + 7) 8 ltac:(lia)) as Hd.
    pose proof (Z.mod_pos_bound (BitLen (rsa_N k) + 7) 8 ltac:(lia)) as Hm.
    lia. }
  assert (Hok : ParseDKIM pkix pkcs1 s =
                Ok (keyRecord params "rsa" (ReplaceAll p " " "") false)).
  { rewrite (ParseDKIM_key pkix pkcs1 s params p b Hlex Hv Hp Hne Hb).
    cbv zeta. apply selectsRSA_keyType in Hk. rewrite Hk.
    apply parseRSAKeyMaterial_valid in Hrsa. rewrite Hrsa, Hsize.
    reflexivity. }
  split; [lia|]. split; [exact Hsize|]. split; [exact Hok|].
  intros n. rewrite Hok. discriminate.
Qed.

End Decoders.

(** *** The theorems at concrete records *)

Lemma revocation_witness :
  (true = true <-> revokedParams !! "p"%string = Some ""%string)
  /\ (""%string = ""%string <-> true = true)
  /\ ~ occurs " "%char ""
  /\ (true = true -> "rsa"%string = "rsa"%string).
Proof.
  apply (revocation DER.ParsePKIXPublicKey DER.ParsePKCS1PublicKey
           revokedRecord revokedParams
           {| KeyType := "rsa"; PublicKey := ""; HashAlgorithms := [];
              Services := []; Flags := []; Notes := ""; IsRevoked := true |});
    vm_compute; reflexivity.
Defined.

Lemma optional_tags_witness :
  ["sha1"; "sha256"; "x"]%string =
    tagList (<["h"%string := "sha1: sha256 ::x"%string]>
               (<["p"%string := ""%string]> ∅)) "h"
  /\ [] = tagList (<["h"%string := "sha1: sha256 ::x"%string]>
                     (<["p"%string := ""%string]> ∅)) "s"
  /\ [] = tagList (<["h"%string := "sha1: sha256 ::x"%string]>
                     (<["p"%string := ""%string]> ∅)) "t"
  /\ ""%string = tagText (<["h"%string := "sha1: sha256 ::x"%string]>
                            (<["p"%string := ""%string]> ∅)) "n".
Proof.
  apply (optional_tags DER.ParsePKIXPublicKey DER.ParsePKCS1PublicKey
           "p=; h=sha1: sha256 ::x"
           (<["h"%string := "sha1: sha256 ::x"%string]>
              (<["p"%string := ""%string]> ∅))
           {| KeyType := "rsa"; PublicKey := "";
              HashAlgorithms := ["sha1"; "sha256"; "x"]; Services := [];
              Flags := []; Notes := ""; IsRevoked := true |});
    vm_compute; reflexivity.
Defined.

Lemma known_tags_only_witness :
  parse "v=DKIM1; x=1; p=" = parse "p= ;v=DKIM1;y=2;z=3".
Proof.
  apply (known_tags_only DER.ParsePKIXPublicKey DER.ParsePKCS1PublicKey
           "v=DKIM1; x=1; p=" "p= ;v=DKIM1;y=2;z=3"
           (<["p"%string := ""%string]>
              (<["x"%string := "1"%string]> (<["v"%string := "DKIM1"%string]> ∅)))
           (<["z"%string := "3"%string]>
              (<["y"%string := "2"%string]>
                 (<["v"%string := "DKIM1"%string]> (<["p"%string := ""%string]> ∅))))).
  - vm_compute. reflexivity.
  - vm_compute. reflexivity.
  - intros t Ht. unfold knownTags in Ht.
    rewrite !elem_of_cons, elem_of_nil in Ht.
    destruct Ht as [->|[->|[->|[->|[->|[->|[->|[]]]]]]]];
      vm_compute; reflexivity.
Defined.

Lemma tag_order_witness :
  parse (joined "v=DKIM1; k=ed25519" ";" (String.append "p=" edKey))
  = parse (joined (String.append "p=" edKey) ";" "v=DKIM1; k=ed25519").
Proof.
  apply (tag_order DER.ParsePKIXPublicKey DER.ParsePKCS1PublicKey
           "v=DKIM1; k=ed25519" (String.append "p=" edKey)
           (<["k"%string := "ed25519"%string]> (<["v"%string := "DKIM1"%string]> ∅))
           (<["p"%string := edKey]> ∅)).
  - vm_compute. reflexivity.
  - vm_compute. reflexivity.
  - apply map_disjoint_insert_r_2; [vm_compute; reflexivity|].
    apply map_disjoint_empty_r.
Defined.

Lemma modulus_below_1024_bits_accepted_witness :
  BitLen (rsa_N (rsaKeyOf key1017)) = 1017
  /\ parse (recordOf "DKIM1" "rsa" key1017) =
     Ok {| KeyType := "rsa"; PublicKey := key1017; HashAlgorithms := [];
           Services := []; Flags := []; Notes := ""; IsRevoked := false |}.
Proof.
  split; [vm_compute; reflexivity|].
  apply (modulus_below_1024_bits_accepted
           DER.ParsePKIXPublicKey DER.ParsePKCS1PublicKey
           (recordOf "DKIM1" "rsa" key1017) (paramsOf "DKIM1" "rsa" key1017)
           key1017 (bytesOf key1017) (rsaKeyOf key1017)).
  - vm_compute. reflexivity.
  - right. vm_compute. reflexivity.
  - vm_compute. reflexivity.
  - discriminate.
  - vm_compute. reflexivity.
  - right. left. vm_compute. reflexivity.
  - right. split; vm_compute; reflexivity.
  - vm_compute. split; discriminate.
Defined.

End ParserCover.

(** ** More on the SPF classifier *)

Module SPFCover.
Import SPF Spec Samples Cover SPFProps.

Lemma length_append (a b : string) :
  String.length (String.append a b) = (String.length a + String.length b)%nat.
Proof. induction a as [|c a IH]; simpl; [reflexivity|]. rewrite IH. reflexivity. Qed.

Lemma qualifierOf_range (text : string) : qualifierOf text ∈ qualifiers.
Proof.
  destruct (withoutQualifier_spec text) as [[-> _]|[H _]]; [|exact H].
  unfold qualifiers. rewrite elem_of_cons. left. reflexivity.
Qed.

(** X16: whatever the mechanism, the qualifier [parseMechanism] gives is
    one of + - ~ ?, the type is one of the nine type names, unknown exactly
    for a variant the type switch does not list, and the value of all is
    empty. *)
Theorem mechanism_ranges (m : Mechanism) :
  mechQualifier m ∈ qualifiers
  /\ mechType m ∈ mechTypes
  /\ (mechType m = "unknown"%string <-> variant m = MechanismOther)
  /\ (mechType m = "all"%string -> mechValue m = ""%string).
Proof.
  unfold mechQualifier, mechType, mechValue. rewrite parseMechanism_spec. simpl.
  split; [apply qualifierOf_range|].
  split; [|split].
  - unfold mechTypes. rewrite !elem_of_cons.
    destruct (variant m); simpl; tauto.
  - destruct (variant m); simpl; split; (discriminate || reflexivity).
  - destruct (variant m); simpl; (discriminate || reflexivity).
Qed.

(** X17: [formatMechanismA] and [formatMechanismMX] return the domain
    specification as it is, so the value of an a or mx mechanism is its
    domain, and the empty string when it has none. *)
Theorem a_mx_value_is_domain (text d : string) :
  formatMechanismA d = d /\ formatMechanismMX d = d
  /\ parseMechanism {| Mechanism_String := text; variant := MechanismA d |}
     = (qualifierOf text, "a"%string, d)
  /\ parseMechanism {| Mechanism_String := text; variant := MechanismMX d |}
     = (qualifierOf text, "mx"%string, d).
Proof.
  assert (Ha : formatMechanismA d = d).
  { unfold formatMechanismA. destruct (String.eqb d "") eqn:E; [|reflexivity].
    apply String.eqb_eq in E. congruence. }
  assert (Hx : formatMechanismMX d = d).
  { unfold formatMechanismMX. destruct (String.eqb d "") eqn:E; [|reflexivity].
    apply String.eqb_eq in E. congruence. }
  split; [exact Ha|]. split; [exact Hx|].
  rewrite !parseMechanism_spec. simpl. split; reflexivity.
Qed.

(** X18: the lookup count is at least 0 and at most the number of
    mechanisms plus one, and the count of two lists of mechanisms put
    together is the sum of their counts, the redirect counted once. *)
Theorem lookup_count_bounds (ms1 ms2 : list Mechanism) (redirect : string) :
  let count ms r :=
    DNSLookupCount (Read {| spf_Mechanisms := ms; spf_Redirect := r |}) in
  0 <= count ms1 redirect <= Z.of_nat (length ms1) + 1
  /\ count (ms1 ++ ms2) redirect = count ms1 ""%string + count ms2 redirect.
Proof.
  cbv beta zeta. rewrite !Read_count. simpl.
  pose proof (length_filter (λ m, mechType m ∈ lookupTypes) ms1) as Hle.
  rewrite filter_app, length_app.
  destruct (String.eqb redirect ""); lia.
Qed.

Lemma includes_count (n : nat) :
  length (filter (λ m, mechType m ∈ lookupTypes) (includes n)) = n.
Proof.
  unfold includes. induction n as [|n IH]; [reflexivity|].
  cbn [repeat]. rewrite filter_cons_True.
  - simpl. rewrite IH. reflexivity.
  - vm_compute. left.
Qed.

(** X19: the ceiling of ten lookups is not enforced: a record of [n]
    include mechanisms is classified with the count [n], whatever [n] is. *)
Theorem lookup_ceiling_not_enforced (n : nat) :
  DNSLookupCount (Read {| spf_Mechanisms := includes n; spf_Redirect := "" |})
  = Z.of_nat n
  /\ length (Mechanisms (Read {| spf_Mechanisms := includes n;
                                 spf_Redirect := "" |})) = n.
Proof.
  split.
  - rewrite Read_count, includes_count. simpl. lia.
  - rewrite Read_mechanisms, length_map. apply repeat_length.
Qed.

(** X20: an explicit + is the default: a mechanism whose text starts with
    + is classified as the mechanism of the same variant whose text is the
    rest, when the rest starts with no qualifier. *)
Theorem explicit_pass_qualifier (text : string) (v : MechanismVariant) :
  withoutQualifier text = text ->
  parseMechanism {| Mechanism_String := String "+" text; variant := v |}
  = parseMechanism {| Mechanism_String := text; variant := v |}.
Proof.
  intros H. rewrite !parseMechanism_spec. simpl.
  destruct (withoutQualifier_spec text) as [[Hq _]|[_ Hq]].
  - rewrite Hq.
    replace (bool_decide (String "+" EmptyString ∈ qualifiers)) with true
      by (symmetry; apply bool_decide_eq_true_2; unfold qualifiers;
          rewrite elem_of_cons; left; reflexivity).
    rewrite H. reflexivity.
  - exfalso. rewrite H in Hq.
    apply (f_equal String.length) in Hq. rewrite length_append in Hq.
    pose proof (qualifierOf_range text) as Hr. unfold qualifiers in Hr.
    rewrite !elem_of_cons, elem_of_nil in Hr.
    destruct Hr as [E|[E|[E|[E|[]]]]]; rewrite E in Hq; simpl in Hq; lia.
Qed.

Lemma explicit_pass_qualifier_witness :
  parseMechanism {| Mechanism_String := "+a:mail.example.com";
                    variant := MechanismA "mail.example.com" |}
  = parseMechanism {| Mechanism_String := "a:mail.example.com";
                      variant := MechanismA "mail.example.com" |}.
Proof.
  apply (explicit_pass_qualifier "a:mail.example.com"
           (MechanismA "mail.example.com")).
  reflexivity.
Defined.

End SPFCover.

(** ** The DKIM data source *)

Module DataSourceCover.
Import GoStrings Crypto Spec Samples Cover Terraform DKIMDataSource.
Import DKIMProps ParserCover.

Lemma string_slice_shape (slice : list string) :
  convertStringSliceToList slice <> ListValue []
  /\ convertStringSliceToList slice <> ListUnknown.
Proof.
  unfold convertStringSliceToList. destruct slice; simpl; split; discriminate.
Qed.

Lemma string_slice_elements (slice : list string) :
  elementsOf (convertStringSliceToList slice) = slice.
Proof.
  unfold convertStringSliceToList. destruct slice as [|x rest]; simpl;
    [reflexivity|].
  f_equal. rewrite List.map_map. simpl. apply List.map_id.
Qed.

Lemma tagList_nonempty (params : gmap string string) (tag : string) :
  Forall (fun x => x <> ""%string) (tagList params tag).
Proof.
  unfold tagList. destruct (params !! tag) as [v|]; [|constructor].
  rewrite Forall_forall. intros x Hx.
  apply list_elem_of_In, filter_In in Hx. destruct Hx as [_ Hx].
  apply String.eqb_neq, negb_true_iff, Hx.
Qed.

Section Decoders.

Variable pkix : list byte -> option crypto_PublicKey.
Variable pkcs1 : list byte -> option rsa_PublicKey.

(** X23: the state [Read] sets keeps the record of the configuration,
    has the key type rsa or ed25519, a null public key exactly when the key
    is revoked, and lists that are null or hold strings that are not empty;
    it comes with no diagnostic. *)
Theorem read_state (r : tf_String) (ds : list Diagnostic)
    (st : DKIMDataSourceModel) :
  Read pkix pkcs1 r = (ds, Some st) ->
  ds = [] /\ Record_ st = r
  /\ (KeyType st = StringValue "rsa" \/ KeyType st = StringValue "ed25519")
  /\ (PublicKey st = StringNull <-> IsRevoked st = BoolValue true)
  /\ (forall l, l ∈ [HashAlgorithms st; Services st; Flags st] ->
        l <> ListValue [] /\ l <> ListUnknown
        /\ Forall (fun x => x <> ""%string) (elementsOf l)).
Proof.
  unfold Read.
  destruct (DKIM.ParseDKIM pkix pkcs1 (ValueString r)) as [rec|e] eqn:Hok;
    [|discriminate].
  intros [= <- <-]. cbn [Record_ KeyType PublicKey IsRevoked HashAlgorithms
                          Services Flags].
  destruct (ParseDKIM_Ok_inv pkix pkcs1 _ _ Hok) as (params & p0 & Hlex & _ & _).
  destruct (ParseDKIM_Ok_record pkix pkcs1 _ params rec Hlex Hok)
    as [[_ ->]|(p & kt & _ & _ & Hstrip & Hkt & ->)];
    cbn [keyRecord DKIM.KeyType DKIM.PublicKey DKIM.IsRevoked
         DKIM.HashAlgorithms DKIM.Services DKIM.Flags].
  - split; [reflexivity|]. split; [reflexivity|]. split; [left; reflexivity|].
    split; [split; reflexivity|].
    intros l Hl. rewrite !elem_of_cons, elem_of_nil in Hl.
    destruct Hl as [->|[->|[->|[]]]];
      (split; [apply string_slice_shape|split; [apply string_slice_shape|]]);
      rewrite string_slice_elements; apply tagList_nonempty.
  - split; [reflexivity|]. split; [reflexivity|].
    split; [destruct Hkt as [-> | ->]; [left|right]; reflexivity|].
    apply String.eqb_neq in Hstrip. rewrite Hstrip. simpl.
    split; [split; discriminate|].
    intros l Hl. rewrite !elem_of_cons, elem_of_nil in Hl.
    destruct Hl as [->|[->|[->|[]]]];
      (split; [apply string_slice_shape|split; [apply string_slice_shape|]]);
      rewrite string_slice_elements; apply tagList_nonempty.
Qed.

End Decoders.

Lemma read_state_witness :
  @nil Diagnostic = [] /\ StringValue revokedTagged = StringValue revokedTagged
  /\ (StringValue "rsa" = StringValue "rsa"
      \/ StringValue "rsa" = StringValue "ed25519")
  /\ (StringNull = StringNull <-> BoolValue true = BoolValue true)
  /\ (forall l,
        l ∈ [ListValue [StringValue "sha1"; StringValue "sha256"; StringValue "x"];
             ListNull; ListValue [StringValue "y"; StringValue "s"]] ->
        l <> ListValue [] /\ l <> ListUnknown
        /\ Forall (fun x => x <> ""%string) (elementsOf l)).
Proof.
  apply (read_state DER.ParsePKIXPublicKey DER.ParsePKCS1PublicKey
           (StringValue revokedTagged) []
           {| Record_ := StringValue revokedTagged;
              KeyType := StringValue "rsa"; PublicKey := StringNull;
              HashAlgorithms :=
                ListValue [StringValue "sha1"; StringValue "sha256"; StringValue "x"];
              Services := ListNull;
              Flags := ListValue [StringValue "y"; StringValue "s"];
              Notes := StringValue "rotated out";
              IsRevoked := BoolValue true |}).
  vm_compute. reflexivity.
Defined.

End DataSourceCover.
